(** * Active-panel tracking and launch lists of the notebook and console plugins

    A shallow embedding of [src/notebook/plugin.ts] (the [ActiveNotebook]
    tracker, the tracking widget factory, the notebook command handlers and
    the creator list) and of the console part of [src/editorhandler/plugin.ts]
    (the private widget list, the focus follower, the console commands and the
    console-create commands).

    Widgets are host objects compared with [===]; they are modelled by their
    identity.  [null] is [None].  Signals of the host library are modelled by
    the list of connected slots and by the log of emitted values. *)

From Stdlib Require Import ZArith Lia.
From stdpp Require Import base decidable option list sorting strings pretty.

(** ** Host objects *)

(** Identity of a panel widget ([NotebookPanel] or [ConsolePanel]). *)
Definition Panel := nat.

(** Identity of a DOM node, the [target] of a focus event. *)
Definition Node := nat.

(** Identity of a kernel object ([context.kernel]). *)
Definition Kernel := nat.

(** What a focus listener reads from the widgets when an event arrives:
    [widget.isAttached], [widget.isVisible] and
    [widget.node.contains(target)]. *)
Record Dom := mkDom {
  isAttached : Panel → bool;
  isVisible : Panel → bool;
  node_contains : Panel → Node → bool
}.

(** ** Array primitives used by both plugins *)

(** [Array.prototype.indexOf]: position of the first element identical to
    [widget], or [-1].  The arrays hold panels only ([null] is never pushed),
    so searching for [null] yields [-1]. *)
Definition indexOf (ws : list Panel) (widget : option Panel) : Z :=
  match widget with
  | None => (-1)%Z
  | Some p =>
      match list_find (λ q, q = p) ws with
      | Some (i, _) => Z.of_nat i
      | None => (-1)%Z
      end
  end.

(** [ws.splice(index, 1)]: a negative [index] counts from the end of the array
    (clamped at 0), an [index] beyond the end removes nothing. *)
Definition splice1 (ws : list Panel) (index : Z) : list Panel :=
  let len := Z.of_nat (length ws) in
  let start := if (index <? 0)%Z then Z.max (len + index) 0 else Z.min index len in
  delete (Z.to_nat start) ws.

(** ** The notebook tracker ([class ActiveNotebook]) *)

Module Notebook.

Record ActiveNotebook := mkActiveNotebook {
  (** [private _activeWidget: NotebookPanel = null] *)
  _activeWidget : option Panel;
  (** [private _widgets: NotebookPanel[] = []] *)
  _widgets : list Panel;
  (** one entry per closure passed to [widget.disposed.connect], in
      connection order, under the widget it was connected to *)
  disposedSlots : list Panel;
  (** the values passed to [activeNotebookChanged.emit], oldest first *)
  emitted : list (option Panel)
}.

(** A freshly constructed tracker. *)
Definition initial : ActiveNotebook :=
  {| _activeWidget := None; _widgets := []; disposedSlots := []; emitted := [] |}.

(** [get activeNotebook()] *)
Definition activeNotebook (t : ActiveNotebook) : option Panel := _activeWidget t.

(** [set activeNotebook(widget)] *)
Definition set_activeNotebook (widget : option Panel) (t : ActiveNotebook)
  : ActiveNotebook :=
  if decide (_activeWidget t = widget) then t
  else if decide (indexOf (_widgets t) widget ≠ (-1)%Z) then
    {| _activeWidget := widget;
       _widgets := _widgets t;
       disposedSlots := disposedSlots t;
       emitted := emitted t ++ [widget] |}
  else
    match widget with
    | None => t
    | Some p =>
        {| _activeWidget := _activeWidget t;
           _widgets := _widgets t ++ [p];
           disposedSlots := disposedSlots t ++ [p];
           emitted := emitted t |}
    end.

(** The closure connected to [widget.disposed] by the setter. *)
Definition disposed_slot (widget : Panel) (t : ActiveNotebook) : ActiveNotebook :=
  let index := indexOf (_widgets t) (Some widget) in
  let t' := {| _activeWidget := _activeWidget t;
               _widgets := splice1 (_widgets t) index;
               disposedSlots := disposedSlots t;
               emitted := emitted t |} in
  if decide (_activeWidget t' = Some widget) then set_activeNotebook None t'
  else t'.

(** [widget.disposed.emit]: every slot connected to this widget's signal
    runs, in connection order. *)
Definition emit_disposed (widget : Panel) (t : ActiveNotebook) : ActiveNotebook :=
  foldl (λ t' w, if decide (w = widget) then disposed_slot widget t' else t')
        t (disposedSlots t).

(** The [for (let widget of this._widgets)] loop of the focus listener. *)
Fixpoint focus_loop (d : Dom) (target : Node) (ws : list Panel)
    (t : ActiveNotebook) : ActiveNotebook :=
  match ws with
  | [] => t
  | widget :: rest =>
      if isAttached d widget && isVisible d widget then
        if node_contains d widget target then
          set_activeNotebook (Some widget) t
        else focus_loop d target rest t
      else focus_loop d target rest t
  end.

(** The capturing ['focus'] listener installed by the constructor. *)
Definition focus_listener (d : Dom) (target : Node) (t : ActiveNotebook)
  : ActiveNotebook :=
  focus_loop d target (_widgets t) t.

(** [TrackingNotebookWidgetFactory.createNew]: [widget] is the panel built
    by [super.createNew]. *)
Definition createNew (widget : Panel) (t : ActiveNotebook) : ActiveNotebook :=
  set_activeNotebook (Some widget) t.

(** What can happen to a tracker. *)
Inductive Event :=
| CreateNew (widget : Panel)
| SetActive (widget : option Panel)
| Focus (d : Dom) (target : Node)
| Disposed (widget : Panel).

Definition step (t : ActiveNotebook) (e : Event) : ActiveNotebook :=
  match e with
  | CreateNew w => createNew w t
  | SetActive w => set_activeNotebook w t
  | Focus d target => focus_listener d target t
  | Disposed w => emit_disposed w t
  end.

(** Events are handled one after the other, each to completion. *)
Definition run (t : ActiveNotebook) (es : list Event) : ActiveNotebook :=
  foldl step t es.

Definition reachable (t : ActiveNotebook) : Prop :=
  ∃ es, t = run initial es.

End Notebook.

(** ** The notebook commands ([activateNotebookHandler]) *)

Module NotebookCommands.
Import Notebook.

(** The command ids of [cmdIds] that get a handler. *)
Inductive Command :=
| runAndAdvance | run | runAndInsert | restart | interrupt
| toCode | toMarkdown | toRaw | cut | copy | paste | deleteCell
| insertAbove | insertBelow | selectAbove | selectBelow
| extendAbove | extendBelow | commandMode | editMode | undo | redo
| switchKernel.

(** The calls a handler makes into the host libraries.  [nbWidget.content],
    [nbWidget.clipboard], [nbWidget.context] and [nbWidget.node] are named
    by the panel they belong to. *)
Inductive HostCall :=
| NotebookActions_runAndAdvance (nbWidget : Panel) (kernel : option Kernel)
| NotebookActions_run (nbWidget : Panel) (kernel : option Kernel)
| NotebookActions_runAndInsert (nbWidget : Panel) (kernel : option Kernel)
| nbWidget_restart (nbWidget : Panel)
| kernel_interrupt (kernel : Kernel)
| NotebookActions_changeCellType (nbWidget : Panel) (value : string)
| NotebookActions_cut (nbWidget : Panel)
| NotebookActions_copy (nbWidget : Panel)
| NotebookActions_paste (nbWidget : Panel)
| NotebookActions_deleteCells (nbWidget : Panel)
| NotebookActions_insertAbove (nbWidget : Panel)
| NotebookActions_insertBelow (nbWidget : Panel)
| NotebookActions_selectAbove (nbWidget : Panel)
| NotebookActions_selectBelow (nbWidget : Panel)
| NotebookActions_extendSelectionAbove (nbWidget : Panel)
| NotebookActions_extendSelectionBelow (nbWidget : Panel)
| content_set_mode (nbWidget : Panel) (mode : string)
| cells_undo (nbWidget : Panel)
| cells_redo (nbWidget : Panel)
| selectKernel (nbWidget : Panel).

(** The body each handler runs under [if (tracker.activeNotebook)];
    [context_kernel] reads [nbWidget.context.kernel]. *)
Definition action (context_kernel : Panel → option Kernel)
    (c : Command) (nbWidget : Panel) : list HostCall :=
  match c with
  | runAndAdvance => [NotebookActions_runAndAdvance nbWidget (context_kernel nbWidget)]
  | run => [NotebookActions_run nbWidget (context_kernel nbWidget)]
  | runAndInsert => [NotebookActions_runAndInsert nbWidget (context_kernel nbWidget)]
  | restart => [nbWidget_restart nbWidget]
  | interrupt =>
      match context_kernel nbWidget with
      | Some kernel => [kernel_interrupt kernel]
      | None => []
      end
  | toCode => [NotebookActions_changeCellType nbWidget "code"]
  | toMarkdown => [NotebookActions_changeCellType nbWidget "markdown"]
  | toRaw => [NotebookActions_changeCellType nbWidget "raw"]
  | cut => [NotebookActions_cut nbWidget]
  | copy => [NotebookActions_copy nbWidget]
  | paste => [NotebookActions_paste nbWidget]
  | deleteCell => [NotebookActions_deleteCells nbWidget]
  | insertAbove => [NotebookActions_insertAbove nbWidget]
  | insertBelow => [NotebookActions_insertBelow nbWidget]
  | selectAbove => [NotebookActions_selectAbove nbWidget]
  | selectBelow => [NotebookActions_selectBelow nbWidget]
  | extendAbove => [NotebookActions_extendSelectionAbove nbWidget]
  | extendBelow => [NotebookActions_extendSelectionBelow nbWidget]
  | commandMode => [content_set_mode nbWidget "command"]
  | editMode => [content_set_mode nbWidget "edit"]
  | undo => [content_set_mode nbWidget "command"; cells_undo nbWidget]
  | redo => [content_set_mode nbWidget "command"; cells_redo nbWidget]
  | switchKernel => [selectKernel nbWidget]
  end.

(** A command handler: the tracker after the call and the host calls made,
    in order. *)
Definition handler (context_kernel : Panel → option Kernel)
    (c : Command) (tracker : ActiveNotebook) : ActiveNotebook * list HostCall :=
  match activeNotebook tracker with
  | Some nbWidget => (tracker, action context_kernel c nbWidget)
  | None => (tracker, [])
  end.

End NotebookCommands.

(** ** The console plugin ([activateConsole] and its [Private] namespace) *)

Module Console.

Record Private := mkPrivate {
  (** [var widgets: ConsolePanel[] = []] *)
  widgets : list Panel;
  (** [var activeWidget: ConsolePanel = null] *)
  activeWidget : option Panel;
  (** closures connected to [console.disposed], by console *)
  disposedSlots : list Panel;
  (** [let count = 0] of [activateConsole] *)
  count : nat
}.

Definition initial : Private :=
  {| widgets := []; activeWidget := None; disposedSlots := []; count := 0 |}.

(** The synchronous part of a [console:create-*] handler: the arguments of
    [manager.startNew], with [count++]. *)
Definition create_handler (kernelName : string) (s : Private)
  : Private * (string * string) :=
  ({| widgets := widgets s; activeWidget := activeWidget s;
      disposedSlots := disposedSlots s; count := S (count s) |},
   ("Console-" +:+ pretty (count s), kernelName)).

(** The [then] callback of [manager.startNew]; [console] is the new
    [ConsolePanel].  It is added to the main area and its disposal is
    subscribed to. *)
Definition session_started (console : Panel) (s : Private) : Private :=
  {| widgets := widgets s; activeWidget := activeWidget s;
     disposedSlots := disposedSlots s ++ [console]; count := count s |}.

(** The closure connected to [console.disposed]. *)
Definition disposed_slot (console : Panel) (s : Private) : Private :=
  let index := indexOf (widgets s) (Some console) in
  let ws := splice1 (widgets s) index in
  if decide (activeWidget s = Some console) then
    {| widgets := ws; activeWidget := None;
       disposedSlots := disposedSlots s; count := count s |}
  else
    {| widgets := ws; activeWidget := activeWidget s;
       disposedSlots := disposedSlots s; count := count s |}.

Definition emit_disposed (console : Panel) (s : Private) : Private :=
  foldl (λ s' w, if decide (w = console) then disposed_slot console s' else s')
        s (disposedSlots s).

(** The loop of the console focus follower. *)
Fixpoint focus_loop (d : Dom) (target : Node) (ws : list Panel) (s : Private)
  : Private :=
  match ws with
  | [] => s
  | widget :: rest =>
      if isAttached d widget && isVisible d widget then
        if node_contains d widget target then
          {| widgets := widgets s; activeWidget := Some widget;
             disposedSlots := disposedSlots s; count := count s |}
        else focus_loop d target rest s
      else focus_loop d target rest s
  end.

Definition focus_listener (d : Dom) (target : Node) (s : Private) : Private :=
  focus_loop d target (widgets s) s.

(** The two commands that consult [Private.activeWidget]. *)
Inductive Command := clear | execute.

Inductive HostCall :=
| content_clear (console : Panel)
| content_execute (console : Panel).

Definition handler (c : Command) (s : Private) : Private * list HostCall :=
  match activeWidget s with
  | Some console =>
      (s, match c with
          | clear => [content_clear console]
          | execute => [content_execute console]
          end)
  | None => (s, [])
  end.

End Console.

(** ** The launch entries built from the kernel specs *)

Module Launch.

(** [specs.kernelspecs[kernelName].spec], of which only [display_name] is
    read. *)
Record KernelSpec := mkKernelSpec { display_name : string }.

(** [specs.kernelspecs] as the [for ... in] loop sees it: the kernel names in
    enumeration order, each with its spec. *)
Abbreviation KernelSpecs := (list (string * KernelSpec)).

(** An object created by [Object.create(null)] and used as a map from
    strings to strings: its own properties in creation order. *)
Abbreviation StringMap := (list (string * string)).

(** [o[key] = value]: an existing property keeps its place. *)
Fixpoint obj_set (o : StringMap) (key value : string) : StringMap :=
  match o with
  | [] => [(key, value)]
  | (k, v) :: o' =>
      if decide (k = key) then (k, value) :: o'
      else (k, v) :: obj_set o' key value
  end.

(** [o[key]], [None] for [undefined]. *)
Fixpoint obj_get (o : StringMap) (key : string) : option string :=
  match o with
  | [] => None
  | (k, v) :: o' => if decide (k = key) then Some v else obj_get o' key
  end.

(** [Object.keys(o)], in creation order.  (An engine may list the keys that
    are array indices first; the keys are only used sorted, and
    [LaunchProps.sorted_keys_any_order] covers every order of the keys.) *)
Definition Object_keys (o : StringMap) : list string := o.*1.

(** A template literal prints [undefined] by its name. *)
Definition template (v : option string) : string := default "undefined" v.

(** The first loop of both plugins. *)
Definition displayNameMap (kernelspecs : KernelSpecs) : StringMap :=
  foldl (λ m ks, obj_set m (display_name ks.2) ks.1) [] kernelspecs.

(** The argument of [registry.registerCreator]. *)
Record Creator := mkCreator {
  name : string;
  extension : string;
  type : string;
  kernelName : option string
}.

(** What the console plugin registers per display name: the command [id], the
    [kernelName] its handler passes to [manager.startNew], and the [text] of
    the palette entry. *)
Record ConsoleCreate := mkConsoleCreate {
  id : string;
  startNew_kernelName : string;
  text : string
}.

Section WithCollation.

(** [a.localeCompare(b)] of the host. *)
Variable localeCompare : string → string → Z.

(** The comparator [(a, b) => a.localeCompare(b)] leaves [a] before [b]
    when its result is not positive. *)
Definition before (a b : string) : Prop := (localeCompare a b ≤ 0)%Z.

#[global] Instance before_dec a b : Decision (before a b).
Proof. unfold before. apply _. Defined.

(** [Array.prototype.sort] with that comparator. *)
Definition sort (names : list string) : list string :=
  merge_sort before names.

Definition displayNames (kernelspecs : KernelSpecs) : list string :=
  sort (Object_keys (displayNameMap kernelspecs)).

(** The creators registered by [activateNotebookHandler], in
    registration order. *)
Definition creators (kernelspecs : KernelSpecs) : list Creator :=
  let m := displayNameMap kernelspecs in
  (λ displayName,
     {| name := displayName +:+ " Notebook";
        extension := ".ipynb";
        type := "notebook";
        kernelName := obj_get m displayName |}) <$> displayNames kernelspecs.

(** The commands and palette entries registered by [activateConsole], in
    registration order. *)
Definition console_creates (kernelspecs : KernelSpecs) : list ConsoleCreate :=
  let m := displayNameMap kernelspecs in
  (λ displayName,
     {| id := "console:create-" +:+ template (obj_get m displayName);
        startNew_kernelName := template (obj_get m displayName);
        text := "New " +:+ displayName |}) <$> displayNames kernelspecs.

End WithCollation.

End Launch.

(** ** Notions used to state the properties *)

Module Spec.
Import Notebook Launch.

(** A panel holds the focus target when it is attached, visible and its node
    contains the target. *)
Definition holds_focus (d : Dom) (target : Node) (widget : Panel) : bool :=
  isAttached d widget && isVisible d widget && node_contains d widget target.

(** A list of handles with every handle kept at its first occurrence only. *)
Fixpoint first_occurrences (l : list Panel) : list Panel :=
  match l with
  | [] => []
  | p :: l' => p :: filter (λ q, q ≠ p) (first_occurrences l')
  end.

(** The handle an event asks the tracker to register, if any. *)
Definition registered_handle (e : Event) : option Panel :=
  match e with
  | CreateNew w => Some w
  | SetActive w => w
  | Focus _ _ => None
  | Disposed _ => None
  end.

Definition is_disposal (e : Event) : bool :=
  match e with
  | Disposed _ => true
  | _ => false
  end.

(** A focus event in which every panel is attached and visible and panel [w]
    contains exactly the node [w]. *)
Definition own_node : Dom :=
  {| isAttached := λ _, true; isVisible := λ _, true;
     node_contains := λ w n, bool_decide (w = n) |}.

(** The invariant of the data model: the active panel, if set, is tracked. *)
Definition active_is_tracked (t : ActiveNotebook) : Prop :=
  ∀ p, _activeWidget t = Some p → p ∈ _widgets t.

(** The kernel name enumerated last among those with display name [d]. *)
Definition last_enumerated (kernelspecs : KernelSpecs) (d : string)
  : option string :=
  fst <$> last (filter (λ ks, display_name ks.2 = d) kernelspecs).

(** A collation that orders strings by their length only; distinct strings of
    the same length compare as equal. *)
Definition by_length (a b : string) : Z :=
  (Z.of_nat (String.length a) - Z.of_nat (String.length b))%Z.

(** The creator registered for display name [d]. *)
Definition creator_for (kernelspecs : KernelSpecs) (d : string) : Creator :=
  {| name := d +:+ " Notebook"; extension := ".ipynb"; type := "notebook";
     kernelName := last_enumerated kernelspecs d |}.

(** The console command registered for display name [d]. *)
Definition console_create_for (kernelspecs : KernelSpecs) (d : string)
  : ConsoleCreate :=
  {| id := "console:create-" +:+ template (last_enumerated kernelspecs d);
     startNew_kernelName := template (last_enumerated kernelspecs d);
     text := "New " +:+ d |}.

End Spec.

(** ** The console plugin over time *)

Module ConsoleRun.
Import Console.

(** What the console plugin asks of the host: a session from
    [manager.startNew], or a call on the content of a console. *)
Inductive Effect :=
| startNew (notebookPath kernelName : string)
| host (call : HostCall).

(** What can happen to the console plugin: a [console:create-*] command is
    invoked, the session it asked for has started and its panel [console] is
    built, a focus event arrives, a console is disposed, or one of the two
    console commands is invoked. *)
Inductive Event :=
| Create (kernelName : string)
| SessionStarted (console : Panel)
| Focus (d : Dom) (target : Node)
| Disposed (console : Panel)
| Invoke (c : Command).

Definition step (s : Private) (e : Event) : Private * list Effect :=
  match e with
  | Create kernelName =>
      let '(s', (notebookPath, k)) := create_handler kernelName s in
      (s', [startNew notebookPath k])
  | SessionStarted console => (session_started console s, [])
  | Focus d target => (focus_listener d target s, [])
  | Disposed console => (emit_disposed console s, [])
  | Invoke c => let '(s', calls) := handler c s in (s', host <$> calls)
  end.

(** Events are handled one after the other; the effects are collected in
    order. *)
Fixpoint run (s : Private) (es : list Event) : Private * list Effect :=
  match es with
  | [] => (s, [])
  | e :: es' =>
      let '(s', out) := step s e in
      let '(s'', out') := run s' es' in
      (s'', out ++ out')
  end.

End ConsoleRun.

(** ** Further notions used to state properties *)

Module Notions.
Import Notebook NotebookCommands Launch.

(** A host call acts on panel [w]: on its content, clipboard, context or
    node, or on the kernel of its context. *)
Definition acts_on (context_kernel : Panel → option Kernel) (w : Panel)
    (call : HostCall) : Prop :=
  match call with
  | NotebookActions_runAndAdvance p k
  | NotebookActions_run p k
  | NotebookActions_runAndInsert p k => p = w ∧ k = context_kernel w
  | kernel_interrupt k => context_kernel w = Some k
  | nbWidget_restart p
  | NotebookActions_changeCellType p _
  | NotebookActions_cut p
  | NotebookActions_copy p
  | NotebookActions_paste p
  | NotebookActions_deleteCells p
  | NotebookActions_insertAbove p
  | NotebookActions_insertBelow p
  | NotebookActions_selectAbove p
  | NotebookActions_selectBelow p
  | NotebookActions_extendSelectionAbove p
  | NotebookActions_extendSelectionBelow p
  | content_set_mode p _
  | cells_undo p
  | cells_redo p
  | selectKernel p => p = w
  end.

(** The notebook paths among the effects of the console plugin. *)
Definition notebookPaths (out : list ConsoleRun.Effect) : list string :=
  omap (λ e, match e with
             | ConsoleRun.startNew notebookPath _ => Some notebookPath
             | ConsoleRun.host _ => None
             end) out.

(** The host calls among the effects of the console plugin. *)
Definition hostCalls (out : list ConsoleRun.Effect) : list Console.HostCall :=
  omap (λ e, match e with
             | ConsoleRun.startNew _ _ => None
             | ConsoleRun.host call => Some call
             end) out.

(** The display names of a collection of kernel specs, in enumeration
    order. *)
Definition display_names (kernelspecs : KernelSpecs) : list string :=
  (λ ks, display_name ks.2) <$> kernelspecs.

(** A collation that compares strings character by character, by character
    code; only identical strings compare as equal. *)
Definition by_code (a b : string) : Z :=
  match String.compare a b with
  | Lt => (-1)%Z
  | Eq => 0%Z
  | Gt => 1%Z
  end.

End Notions.

(** * Properties *)

(** ** The array primitives *)

Lemma indexOf_null ws : indexOf ws None = (-1)%Z.
Proof. reflexivity. Qed.

Lemma indexOf_absent ws p : p ∉ ws → indexOf ws (Some p) = (-1)%Z.
Proof.
  intros Hp. unfold indexOf.
  destruct (list_find _ ws) as [[i q]|] eqn:Hfind; [|done].
  apply list_find_Some in Hfind as (Hi & -> & _).
  destruct Hp. by eapply list_elem_of_lookup_2.
Qed.

Lemma indexOf_present ws p :
  p ∈ ws →
  ∃ i, indexOf ws (Some p) = Z.of_nat i ∧ ws !! i = Some p
       ∧ ∀ j q, ws !! j = Some q → (j < i)%nat → q ≠ p.
Proof.
  intros Hp. unfold indexOf.
  destruct (list_find_elem_of (λ q, q = p) ws p Hp eq_refl) as [[i q] Hfind].
  rewrite Hfind. apply list_find_Some in Hfind as (Hi & -> & Hleast).
  exists i. split_and!; [done..|]. intros j q Hj Hlt. by eapply Hleast.
Qed.

Lemma indexOf_tracked_iff ws p : indexOf ws (Some p) ≠ (-1)%Z ↔ p ∈ ws.
Proof.
  split.
  - intros Hne. destruct (decide (p ∈ ws)) as [|Hnot]; [done|].
    by apply indexOf_absent in Hnot.
  - intros (i & -> & _)%indexOf_present. lia.
Qed.

Lemma delete_beyond {A} (l : list A) i : (length l ≤ i)%nat → delete i l = l.
Proof.
  intros Hi. rewrite delete_take_drop, take_ge, drop_ge by lia.
  apply app_nil_r.
Qed.

Lemma splice1_in_range ws (i : nat) :
  splice1 ws (Z.of_nat i) = delete i ws.
Proof.
  unfold splice1. destruct (Z.ltb_spec (Z.of_nat i) 0) as [|_]; [lia|].
  destruct (decide (i ≤ length ws)%nat) as [Hle|Hgt].
  - by rewrite Z.min_l, Nat2Z.id by lia.
  - rewrite Z.min_r, Nat2Z.id by lia.
    rewrite !delete_beyond; [done|lia..].
Qed.

Lemma splice1_minus_one ws : splice1 ws (-1) = removelast ws.
Proof.
  unfold splice1. simpl.
  induction ws as [|a ws IH] using rev_ind; [done|].
  rewrite removelast_last, length_app. simpl.
  replace (Z.to_nat _) with (length ws) by lia.
  rewrite delete_middle. by rewrite app_nil_r.
Qed.

Lemma splice1_sublist ws index : splice1 ws index `sublist_of` ws.
Proof. unfold splice1. apply sublist_delete. Qed.

(** ** The setter of the notebook tracker *)

Module SetterProps.
Import Notebook Spec.

(** The three outcomes of the setter, by the branch taken. *)
Lemma set_same t widget :
  _activeWidget t = widget → set_activeNotebook widget t = t.
Proof. intros H. unfold set_activeNotebook. by rewrite decide_True. Qed.

Lemma set_tracked t p :
  _activeWidget t ≠ Some p → p ∈ _widgets t →
  set_activeNotebook (Some p) t =
    {| _activeWidget := Some p; _widgets := _widgets t;
       disposedSlots := disposedSlots t; emitted := emitted t ++ [Some p] |}.
Proof.
  intros Hact Hin. unfold set_activeNotebook.
  rewrite decide_False by done.
  by rewrite decide_True by by apply indexOf_tracked_iff.
Qed.

Lemma set_untracked t p :
  _activeWidget t ≠ Some p → p ∉ _widgets t →
  set_activeNotebook (Some p) t =
    {| _activeWidget := _activeWidget t; _widgets := _widgets t ++ [p];
       disposedSlots := disposedSlots t ++ [p]; emitted := emitted t |}.
Proof.
  intros Hact Hin. unfold set_activeNotebook.
  rewrite decide_False by done.
  by rewrite decide_False by (rewrite indexOf_tracked_iff; tauto).
Qed.

Lemma set_null t : set_activeNotebook None t = t.
Proof.
  unfold set_activeNotebook. case_decide; [done|].
  by rewrite decide_False by (rewrite indexOf_null; tauto).
Qed.

(** The setter never drops a tracked panel and never reorders the list. *)
Lemma set_widgets_prefix widget t :
  _widgets t `prefix_of` _widgets (set_activeNotebook widget t).
Proof.
  unfold set_activeNotebook. repeat case_decide; try done.
  destruct widget; [|done]. by apply prefix_app_r.
Qed.

(** C1, as amended.  For every tracker and every panel [p] that is neither
    tracked nor the current active panel, [setActive(p)] appends [p] to the
    tracked panels and subscribes to its disposal; the active panel stays what
    it was and no change notification is emitted. *)
Theorem setActive_untracked_only_registers (t : ActiveNotebook) (p : Panel) :
  p ∉ _widgets t →
  activeNotebook t ≠ Some p →
  let t' := set_activeNotebook (Some p) t in
  _widgets t' = _widgets t ++ [p]
  ∧ disposedSlots t' = disposedSlots t ++ [p]
  ∧ activeNotebook t' = activeNotebook t
  ∧ emitted t' = emitted t.
Proof.
  intros Hin Hact t'. subst t'. by rewrite set_untracked.
Qed.

Lemma setActive_untracked_only_registers_witness :
  (1%nat ∉ _widgets initial)
  ∧ activeNotebook initial ≠ Some 1%nat
  ∧ _widgets (set_activeNotebook (Some 1%nat) initial) = [1%nat]
  ∧ disposedSlots (set_activeNotebook (Some 1%nat) initial) = [1%nat]
  ∧ activeNotebook (set_activeNotebook (Some 1%nat) initial) = None
  ∧ emitted (set_activeNotebook (Some 1%nat) initial) = [].
Proof.
  assert (1%nat ∉ _widgets initial) as Hin by (simpl; apply not_elem_of_nil).
  assert (activeNotebook initial ≠ Some 1%nat) as Hact by (simpl; discriminate).
  split; [exact Hin|]. split; [exact Hact|].
  exact (setActive_untracked_only_registers initial 1%nat Hin Hact).
Defined.

(** C1, as stated, fails on a fresh tracker: panel 1 is not tracked, and
    after [setActive(1)] it is tracked but it is not the active panel and no
    notification was emitted. *)
Lemma setActive_untracked_counterexample :
  (1%nat ∉ _widgets initial)
  ∧ ¬ ((1%nat ∈ _widgets (set_activeNotebook (Some 1%nat) initial))
       ∧ activeNotebook (set_activeNotebook (Some 1%nat) initial) = Some 1%nat
       ∧ emitted (set_activeNotebook (Some 1%nat) initial)
         = emitted initial ++ [Some 1%nat]).
Proof.
  split.
  - simpl. apply not_elem_of_nil.
  - intros (_ & Hact & _). vm_compute in Hact. discriminate.
Qed.

(** C4.  [setActive(null)] leaves every tracker as it is: the [null] guard of
    the setter returns before the active reference is touched.  On the tracker
    in which panel 1 was created and focused, the active panel is 1 and it is
    still 1 after [setActive(null)]. *)
Theorem setActive_null_does_not_clear :
  (∀ t, set_activeNotebook None t = t)
  ∧ activeNotebook (run initial [CreateNew 1%nat; Focus own_node 1%nat])
    = Some 1%nat
  ∧ activeNotebook
      (set_activeNotebook None
         (run initial [CreateNew 1%nat; Focus own_node 1%nat]))
    = Some 1%nat.
Proof. split_and!; [apply set_null|reflexivity..]. Qed.

(** C7.  [setActive(p)] with [p] the current active panel returns the tracker
    unchanged: same active panel, same tracked panels, same subscriptions, and
    nothing added to the notifications. *)
Theorem setActive_current_is_noop (t : ActiveNotebook) :
  set_activeNotebook (activeNotebook t) t = t.
Proof. by apply set_same. Qed.

End SetterProps.

(** ** Disposal *)

Module DisposalProps.
Import Notebook Spec SetterProps.

(** The slot removes the panel it was connected for, when that panel is
    tracked once. *)
Lemma disposed_slot_removes w t :
  NoDup (_widgets t) → w ∈ _widgets t →
  (w ∉ _widgets (disposed_slot w t))
  ∧ ∀ q, q ≠ w → q ∈ _widgets t → q ∈ _widgets (disposed_slot w t).
Proof.
  intros Hnd Hin.
  assert (∃ i, _widgets (disposed_slot w t) = delete i (_widgets t)
               ∧ _widgets t !! i = Some w) as (i & -> & Hi).
  { destruct (indexOf_present _ _ Hin) as (i & Hidx & Hi & _).
    exists i. split; [|done]. unfold disposed_slot.
    rewrite Hidx, splice1_in_range. cbv zeta. simpl.
    case_decide; [by rewrite set_null|done]. }
  pose proof (delete_Permutation _ _ _ Hi) as Hperm.
  rewrite Hperm in Hnd. apply NoDup_cons in Hnd as [Hnot _].
  split; [done|]. intros q Hq Hqin.
  rewrite Hperm in Hqin. by apply elem_of_cons in Hqin as [?|?].
Qed.

(** The slot leaves the active reference alone, whatever it was: the setter
    it calls with [null] returns at its [null] guard. *)
Lemma disposed_slot_keeps_active w t :
  _activeWidget (disposed_slot w t) = _activeWidget t.
Proof.
  unfold disposed_slot. cbv zeta. simpl.
  case_decide; [by rewrite set_null|done].
Qed.

Lemma disposed_slot_emits_nothing w t :
  emitted (disposed_slot w t) = emitted t.
Proof.
  unfold disposed_slot. cbv zeta. simpl.
  case_decide; [by rewrite set_null|done].
Qed.

Lemma disposed_slot_sublist w t :
  _widgets (disposed_slot w t) `sublist_of` _widgets t.
Proof.
  unfold disposed_slot. cbv zeta. simpl.
  case_decide; [rewrite set_null|]; apply splice1_sublist.
Qed.

Lemma emit_disposed_fold w slots t :
  let t' := foldl (λ t' q, if decide (q = w) then disposed_slot w t' else t')
                  t slots in
  _activeWidget t' = _activeWidget t
  ∧ emitted t' = emitted t
  ∧ _widgets t' `sublist_of` _widgets t.
Proof.
  revert t. induction slots as [|q slots IH]; intros t; simpl; [done|].
  destruct (IH (if decide (q = w) then disposed_slot w t else t))
    as (Ha & He & Hw).
  rewrite Ha, He. case_decide.
  - rewrite disposed_slot_keeps_active, disposed_slot_emits_nothing.
    split_and!; [done..|]. etrans; [exact Hw|apply disposed_slot_sublist].
  - done.
Qed.

(** Firing a disposal signal never changes the active reference. *)
Lemma emit_disposed_keeps_active w t :
  _activeWidget (emit_disposed w t) = _activeWidget t.
Proof. apply (emit_disposed_fold w (disposedSlots t) t). Qed.

Lemma emit_disposed_sublist w t :
  _widgets (emit_disposed w t) `sublist_of` _widgets t.
Proof. apply (emit_disposed_fold w (disposedSlots t) t). Qed.

(** The console's slot, by contrast, assigns [null] itself: it removes the
    console and clears the active reference when it pointed to it. *)
Lemma console_disposed_slot_clears c s :
  NoDup (Console.widgets s) → c ∈ Console.widgets s →
  (c ∉ Console.widgets (Console.disposed_slot c s))
  ∧ (Console.activeWidget s = Some c →
     Console.activeWidget (Console.disposed_slot c s) = None)
  ∧ (Console.activeWidget s ≠ Some c →
     Console.activeWidget (Console.disposed_slot c s) = Console.activeWidget s).
Proof.
  intros Hnd Hin.
  destruct (indexOf_present _ _ Hin) as (i & Hidx & Hi & _).
  unfold Console.disposed_slot. rewrite Hidx, splice1_in_range. cbv zeta.
  pose proof (delete_Permutation _ _ _ Hi) as Hperm.
  rewrite Hperm in Hnd. apply NoDup_cons in Hnd as [Hnot _].
  case_decide; simpl; split_and!; done.
Qed.

(** C2.  Panel 1 is created and then focused, so it is tracked and active.
    When its disposal signal fires it leaves the tracked panels, but the
    active panel is still panel 1. *)
Theorem disposed_active_panel_stays_active :
  _widgets (run initial [CreateNew 1%nat; Focus own_node 1%nat]) = [1%nat]
  ∧ activeNotebook (run initial [CreateNew 1%nat; Focus own_node 1%nat])
    = Some 1%nat
  ∧ _widgets (emit_disposed 1%nat
                (run initial [CreateNew 1%nat; Focus own_node 1%nat])) = []
  ∧ activeNotebook (emit_disposed 1%nat
                      (run initial [CreateNew 1%nat; Focus own_node 1%nat]))
    = Some 1%nat.
Proof. by vm_compute. Qed.

(** C3.  A state reached by creating panel 1, focusing it and disposing it has
    panel 1 as its active panel although panel 1 is no longer tracked. *)
Theorem reachable_active_panel_untracked :
  ∃ t, reachable t ∧ activeNotebook t = Some 1%nat ∧ 1%nat ∉ _widgets t.
Proof.
  exists (run initial [CreateNew 1%nat; Focus own_node 1%nat; Disposed 1%nat]).
  split_and!.
  - by eexists.
  - by vm_compute.
  - vm_compute. apply not_elem_of_nil.
Qed.

End DisposalProps.

(** ** The focus follower *)

Module FocusProps.
Import Notebook Spec SetterProps.

(** The nested tests of the loop are the conjunction [holds_focus]. *)
Lemma focus_loop_skip d target w rest t :
  holds_focus d target w = false →
  focus_loop d target (w :: rest) t = focus_loop d target rest t.
Proof.
  unfold holds_focus. simpl.
  destruct (isAttached d w), (isVisible d w), (node_contains d w target); done.
Qed.

Lemma focus_loop_hit d target w rest t :
  holds_focus d target w = true →
  focus_loop d target (w :: rest) t = set_activeNotebook (Some w) t.
Proof.
  unfold holds_focus. simpl.
  destruct (isAttached d w), (isVisible d w), (node_contains d w target); done.
Qed.

Lemma focus_loop_no_match d target ws t :
  Forall (λ w, holds_focus d target w = false) ws →
  focus_loop d target ws t = t.
Proof.
  induction 1 as [|w ws Hw _ IH]; [done|]. by rewrite focus_loop_skip.
Qed.

Lemma focus_loop_first_match d target l1 A l2 t :
  Forall (λ w, holds_focus d target w = false) l1 →
  holds_focus d target A = true →
  focus_loop d target (l1 ++ A :: l2) t = set_activeNotebook (Some A) t.
Proof.
  intros Hl1 HA. induction Hl1 as [|w l1 Hw _ IH]; simpl app.
  - by apply focus_loop_hit.
  - by rewrite focus_loop_skip.
Qed.

Lemma console_focus_loop_first_match d target l1 A l2 s :
  Forall (λ w, holds_focus d target w = false) l1 →
  holds_focus d target A = true →
  Console.focus_loop d target (l1 ++ A :: l2) s =
    {| Console.widgets := Console.widgets s;
       Console.activeWidget := Some A;
       Console.disposedSlots := Console.disposedSlots s;
       Console.count := Console.count s |}.
Proof.
  intros Hl1 HA. unfold holds_focus in *.
  induction Hl1 as [|w l1 Hw _ IH]; simpl.
  - by destruct (isAttached d A), (isVisible d A), (node_contains d A target).
  - by destruct (isAttached d w), (isVisible d w), (node_contains d w target).
Qed.

(** The focus listener either leaves the tracker alone or activates a tracked
    panel; it never touches the tracked panels. *)
Lemma focus_listener_cases d target t :
  focus_listener d target t = t
  ∨ ∃ w, w ∈ _widgets t ∧ focus_listener d target t = set_activeNotebook (Some w) t.
Proof.
  unfold focus_listener.
  assert (∀ ws, (∀ w, w ∈ ws → w ∈ _widgets t) →
    focus_loop d target ws t = t
    ∨ ∃ w, w ∈ _widgets t ∧ focus_loop d target ws t = set_activeNotebook (Some w) t)
    as Hgen.
  { induction ws as [|w ws IH]; intros Hsub; [by left|].
    destruct (holds_focus d target w) eqn:Hw.
    - right. exists w. split; [apply Hsub; left|by apply focus_loop_hit].
    - rewrite focus_loop_skip by done. apply IH. intros q Hq. apply Hsub. by right. }
  by apply Hgen.
Qed.

(** C5.  Let the tracked panels be [l1 ++ A :: l2], where [A] is attached,
    visible and contains the focus target, and no panel of [l1] is.  Then the
    notebook focus listener makes [A] the active panel, whatever [l2] holds:
    no other panel [B] is active afterwards.  The tracked panels are
    unchanged, and one notification with value [A] is emitted unless [A] was
    active already.  The console focus follower, run on the same list, makes
    [A] the active console as well. *)
Theorem focus_activates_first_match
    (d : Dom) (target : Node) (l1 l2 : list Panel) (A : Panel) :
  Forall (λ w, holds_focus d target w = false) l1 →
  holds_focus d target A = true →
  (∀ t, _widgets t = l1 ++ A :: l2 →
     activeNotebook (focus_listener d target t) = Some A
     ∧ (∀ B, B ≠ A → activeNotebook (focus_listener d target t) ≠ Some B)
     ∧ _widgets (focus_listener d target t) = _widgets t
     ∧ emitted (focus_listener d target t) =
         (if decide (activeNotebook t = Some A) then emitted t
          else emitted t ++ [Some A]))
  ∧ (∀ s, Console.widgets s = l1 ++ A :: l2 →
     Console.activeWidget (Console.focus_listener d target s) = Some A
     ∧ (∀ B, B ≠ A →
          Console.activeWidget (Console.focus_listener d target s) ≠ Some B)
     ∧ Console.widgets (Console.focus_listener d target s) = Console.widgets s).
Proof.
  intros Hl1 HA. split.
  - intros t Hws. unfold focus_listener. rewrite Hws.
    rewrite focus_loop_first_match by done.
    assert (activeNotebook (set_activeNotebook (Some A) t) = Some A
            ∧ _widgets (set_activeNotebook (Some A) t) = _widgets t
            ∧ emitted (set_activeNotebook (Some A) t) =
                (if decide (activeNotebook t = Some A) then emitted t
                 else emitted t ++ [Some A])) as (Hact & Hw & Hem).
    { unfold activeNotebook. case_decide as Hcur.
      - by rewrite set_same.
      - rewrite set_tracked; [done..|]. rewrite Hws.
        apply elem_of_app. right. by left. }
    split_and!; [done| |by rewrite Hw, Hws|done].
    intros B HB. rewrite Hact. congruence.
  - intros s Hws. unfold Console.focus_listener. rewrite Hws.
    rewrite console_focus_loop_first_match by done. simpl.
    split_and!; [done| |done]. intros B HB. congruence.
Qed.

Lemma focus_activates_first_match_witness :
  Forall (λ w, holds_focus own_node 2%nat w = false) [1%nat]
  ∧ holds_focus own_node 2%nat 2%nat = true
  ∧ _widgets (run initial [CreateNew 1%nat; CreateNew 2%nat; CreateNew 3%nat])
    = [1%nat] ++ 2%nat :: [3%nat]
  ∧ activeNotebook
      (focus_listener own_node 2%nat
         (run initial [CreateNew 1%nat; CreateNew 2%nat; CreateNew 3%nat]))
    = Some 2%nat.
Proof.
  assert (Forall (λ w, holds_focus own_node 2%nat w = false) [1%nat]) as Hl1
    by by repeat constructor.
  split; [exact Hl1|]. split; [reflexivity|]. split; [reflexivity|].
  apply (proj1 (focus_activates_first_match
                  own_node 2%nat [1%nat] [3%nat] 2%nat Hl1 eq_refl)).
  reflexivity.
Defined.

(** C6.  When no tracked panel is attached, visible and contains the focus
    target, the focus listener returns the tracker as it was: same active
    panel, same tracked panels, nothing emitted. *)
Theorem focus_outside_changes_nothing
    (d : Dom) (target : Node) (t : ActiveNotebook) :
  Forall (λ w, holds_focus d target w = false) (_widgets t) →
  focus_listener d target t = t.
Proof. apply focus_loop_no_match. Qed.

Lemma focus_outside_changes_nothing_witness :
  Forall (λ w, holds_focus own_node 7%nat w = false)
    (_widgets (run initial [CreateNew 1%nat; Focus own_node 1%nat; CreateNew 2%nat]))
  ∧ focus_listener own_node 7%nat
      (run initial [CreateNew 1%nat; Focus own_node 1%nat; CreateNew 2%nat])
    = run initial [CreateNew 1%nat; Focus own_node 1%nat; CreateNew 2%nat].
Proof.
  assert (Forall (λ w, holds_focus own_node 7%nat w = false)
    (_widgets (run initial [CreateNew 1%nat; Focus own_node 1%nat; CreateNew 2%nat])))
    as H by by repeat constructor.
  split; [exact H|].
  exact (focus_outside_changes_nothing own_node 7%nat _ H).
Defined.

End FocusProps.

(** ** Registration order *)

Module RegistrationProps.
Import Notebook Spec SetterProps DisposalProps FocusProps.

Lemma first_occurrences_elem_of l p : p ∈ first_occurrences l ↔ p ∈ l.
Proof.
  induction l as [|a l IH]; simpl; [done|].
  rewrite !elem_of_cons, list_elem_of_filter, IH.
  destruct (decide (p = a)); tauto.
Qed.

Lemma first_occurrences_NoDup l : NoDup (first_occurrences l).
Proof.
  induction l as [|a l IH]; simpl; [constructor|].
  apply NoDup_cons. split; [|by apply NoDup_filter].
  rewrite list_elem_of_filter. tauto.
Qed.

Lemma first_occurrences_snoc l p :
  first_occurrences (l ++ [p]) =
    if decide (p ∈ l) then first_occurrences l else first_occurrences l ++ [p].
Proof.
  induction l as [|a l IH].
  - done.
  - cbn [app first_occurrences]. rewrite IH. destruct (decide (p = a)) as [->|Hne].
    + rewrite (decide_True (P := a ∈ a :: l)) by by left.
      case_decide; [done|].
      by rewrite filter_app, (filter_cons_False _ a []), filter_nil, app_nil_r
        by tauto.
    + case_decide as Hin.
      * by rewrite decide_True by by right.
      * rewrite decide_False by (rewrite elem_of_cons; tauto).
        by rewrite filter_app, (filter_cons_True _ p []), filter_nil by done.
Qed.

(** The setter, by its effect on the tracker. *)
Lemma set_cases widget t :
  set_activeNotebook widget t = t
  ∨ (∃ p, widget = Some p ∧ p ∈ _widgets t
          ∧ _activeWidget (set_activeNotebook widget t) = Some p
          ∧ _widgets (set_activeNotebook widget t) = _widgets t)
  ∨ (∃ p, widget = Some p ∧ (p ∉ _widgets t) ∧ _activeWidget t ≠ Some p
          ∧ _activeWidget (set_activeNotebook widget t) = _activeWidget t
          ∧ _widgets (set_activeNotebook widget t) = _widgets t ++ [p]).
Proof.
  destruct widget as [p|]; [|left; apply set_null].
  destruct (decide (_activeWidget t = Some p)) as [Hact|Hact].
  { left. by apply set_same. }
  destruct (decide (p ∈ _widgets t)) as [Hin|Hin].
  - right; left. exists p. by rewrite set_tracked.
  - right; right. exists p. by rewrite set_untracked.
Qed.

(** The tracked panels never hold a panel twice, in any reachable state. *)
Lemma step_NoDup t e : NoDup (_widgets t) → NoDup (_widgets (step t e)).
Proof.
  intros Hnd.
  assert (∀ widget, NoDup (_widgets (set_activeNotebook widget t))) as Hset.
  { intros widget.
    destruct (set_cases widget t)
      as [->|[(p & _ & _ & _ & ->)|(p & _ & Hin & _ & _ & ->)]]; [done..|].
    apply NoDup_app. split_and!; [done| |apply NoDup_singleton].
    intros x Hx ->%list_elem_of_singleton. done. }
  destruct e as [w|w|d target|w]; simpl.
  - apply Hset.
  - apply Hset.
  - destruct (focus_listener_cases d target t) as [->|(w & _ & ->)]; [done|].
    apply Hset.
  - eapply sublist_NoDup; [exact Hnd|apply emit_disposed_sublist].
Qed.

Lemma reachable_NoDup t : reachable t → NoDup (_widgets t).
Proof.
  intros [es ->]. unfold run.
  induction es as [|e es IH] using rev_ind; [constructor|].
  rewrite foldl_snoc. by apply step_NoDup.
Qed.

(** One event that is not a disposal keeps the active panel tracked and
    extends the tracked panels by the handle it registers, if that is new. *)
Lemma step_registration t e :
  is_disposal e = false → active_is_tracked t →
  active_is_tracked (step t e)
  ∧ _widgets (step t e) =
      match registered_handle e with
      | Some p => if decide (p ∈ _widgets t) then _widgets t else _widgets t ++ [p]
      | None => _widgets t
      end.
Proof.
  intros He Hinv.
  assert (∀ widget,
    active_is_tracked (set_activeNotebook widget t)
    ∧ _widgets (set_activeNotebook widget t) =
        match widget with
        | Some p => if decide (p ∈ _widgets t) then _widgets t else _widgets t ++ [p]
        | None => _widgets t
        end) as Hset.
  { intros widget.
    destruct (set_cases widget t)
      as [Hsame|[(p & -> & Hin & Hact & Hw)|(p & -> & Hin & Hne & Hact & Hw)]].
    - rewrite Hsame. split; [done|].
      destruct widget as [p|]; [|done]. case_decide as Hin; [done|].
      unfold set_activeNotebook in Hsame. case_decide as Hact.
      + destruct Hin. by apply Hinv.
      + rewrite decide_False in Hsame by (rewrite indexOf_tracked_iff; tauto).
        apply (f_equal (length ∘ _widgets)) in Hsame. simpl in Hsame.
        rewrite length_app in Hsame. simpl in Hsame. lia.
    - split.
      + intros q. rewrite Hact, Hw. by intros [= <-].
      + by rewrite Hw, decide_True.
    - split.
      + intros q. rewrite Hact, Hw. intros Hq. apply elem_of_app. left. by apply Hinv.
      + by rewrite Hw, decide_False. }
  destruct e as [w|w|d target|w]; simpl in *; [apply Hset..| |done].
  destruct (focus_listener_cases d target t) as [->|(w & Hin & ->)]; [done|].
  destruct (Hset (Some w)) as [? Hw]. split; [done|].
  by rewrite Hw, decide_True.
Qed.

(** Without disposals the active panel stays tracked, and the tracked panels
    are the registered handles at their first occurrence. *)
Lemma run_without_disposal es :
  Forall (λ e, is_disposal e = false) es →
  active_is_tracked (run initial es)
  ∧ _widgets (run initial es) = first_occurrences (omap registered_handle es).
Proof.
  intros Hes. unfold run. induction es as [|e es IH] using rev_ind.
  - split; [|done]. intros p. simpl. discriminate.
  - apply Forall_app in Hes as [Hes [He _]%Forall_cons].
    destruct (IH Hes) as [Hinv Hw].
    rewrite foldl_snoc, omap_app.
    destruct (step_registration _ e He Hinv) as [Hinv' Hw'].
    split; [done|]. rewrite Hw'. simpl.
    destruct (registered_handle e) as [p|]; simpl.
    + rewrite first_occurrences_snoc, Hw.
      pose proof (first_occurrences_elem_of (omap registered_handle es) p).
      repeat case_decide; first [done|tauto].
    + by rewrite app_nil_r.
Qed.

(** C8.  After any sequence of [createNew], [setActive] and focus events on a
    fresh tracker, the tracked panels are the handles the sequence registered
    (the arguments of [createNew] and the non-null arguments of [setActive]),
    each at the place of its first registration, and no handle occurs
    twice. *)
Theorem registrations_tracked_in_order (es : list Event) :
  Forall (λ e, is_disposal e = false) es →
  _widgets (run initial es) = first_occurrences (omap registered_handle es)
  ∧ NoDup (_widgets (run initial es))
  ∧ (∀ p, p ∈ _widgets (run initial es) ↔ p ∈ omap registered_handle es).
Proof.
  intros [_ Hw]%run_without_disposal.
  rewrite Hw. split_and!; [done|apply first_occurrences_NoDup|].
  intros p. apply first_occurrences_elem_of.
Qed.

Lemma registrations_tracked_in_order_witness :
  Forall (λ e, is_disposal e = false)
    [CreateNew 1%nat; CreateNew 2%nat; SetActive (Some 1%nat);
     SetActive (Some 3%nat); CreateNew 2%nat]
  ∧ _widgets (run initial
       [CreateNew 1%nat; CreateNew 2%nat; SetActive (Some 1%nat);
        SetActive (Some 3%nat); CreateNew 2%nat])
    = [1%nat; 2%nat; 3%nat].
Proof.
  assert (Forall (λ e, is_disposal e = false)
    [CreateNew 1%nat; CreateNew 2%nat; SetActive (Some 1%nat);
     SetActive (Some 3%nat); CreateNew 2%nat]) as H by by repeat constructor.
  split; [exact H|].
  exact (proj1 (registrations_tracked_in_order _ H)).
Defined.

End RegistrationProps.

(** ** Commands without an active panel *)

Module CommandProps.
Import Notebook.

(** C9.  Every notebook command handler, and both console command handlers
    that consult the active panel, do nothing when there is no active panel:
    the tracker (or the console's private state) is returned as it was and no
    call into the host libraries is made. *)
Theorem commands_without_active_panel_do_nothing :
  (∀ context_kernel c t,
     activeNotebook t = None →
     NotebookCommands.handler context_kernel c t = (t, []))
  ∧ (∀ c s,
     Console.activeWidget s = None → Console.handler c s = (s, [])).
Proof.
  split.
  - intros ck c t Hnone. unfold NotebookCommands.handler. by rewrite Hnone.
  - intros c s Hnone. unfold Console.handler. by rewrite Hnone.
Qed.

Lemma commands_without_active_panel_do_nothing_witness :
  activeNotebook (createNew 1%nat initial) = None
  ∧ NotebookCommands.handler (λ _, Some 5%nat) NotebookCommands.run
      (createNew 1%nat initial)
    = (createNew 1%nat initial, [])
  ∧ Console.activeWidget Console.initial = None
  ∧ Console.handler Console.execute Console.initial = (Console.initial, []).
Proof.
  split_and!.
  - reflexivity.
  - apply (proj1 commands_without_active_panel_do_nothing). reflexivity.
  - reflexivity.
  - apply (proj2 commands_without_active_panel_do_nothing). reflexivity.
Defined.

End CommandProps.

(** ** Launch entries *)

Module LaunchProps.
Import Launch Spec.

Lemma obj_get_set o k v k' :
  obj_get (obj_set o k v) k' = if decide (k = k') then Some v else obj_get o k'.
Proof.
  induction o as [|[a b] o IH]; simpl.
  - done.
  - destruct (decide (a = k)) as [->|Hak]; simpl.
    + by destruct (decide (k = k')).
    + rewrite IH. destruct (decide (a = k')) as [->|]; [|done].
      by rewrite decide_False.
Qed.

Lemma Object_keys_set o k v :
  Object_keys (obj_set o k v) =
    if decide (k ∈ Object_keys o) then Object_keys o else Object_keys o ++ [k].
Proof.
  unfold Object_keys. induction o as [|[a b] o IH].
  - done.
  - cbn [obj_set]. destruct (decide (a = k)) as [->|Hak].
    + by rewrite decide_True by (simpl; by left).
    + rewrite fmap_cons, IH. simpl. case_decide as Hin.
      * by rewrite decide_True by by right.
      * by rewrite decide_False by (rewrite elem_of_cons; intros [?|?]; by simplify_eq).
Qed.

Lemma displayNameMap_snoc kernelspecs ks :
  displayNameMap (kernelspecs ++ [ks]) =
    obj_set (displayNameMap kernelspecs) (display_name ks.2) ks.1.
Proof. unfold displayNameMap. by rewrite foldl_snoc. Qed.

Lemma displayNameMap_keys_NoDup kernelspecs :
  NoDup (Object_keys (displayNameMap kernelspecs)).
Proof.
  induction kernelspecs as [|ks kernelspecs IH] using rev_ind; [constructor|].
  rewrite displayNameMap_snoc, Object_keys_set. case_decide as Hin; [done|].
  apply NoDup_app. split_and!; [done| |apply NoDup_singleton].
  by intros x Hx ->%list_elem_of_singleton.
Qed.

Lemma displayNameMap_keys_elem_of kernelspecs d :
  d ∈ Object_keys (displayNameMap kernelspecs)
  ↔ ∃ k s, (k, s) ∈ kernelspecs ∧ display_name s = d.
Proof.
  induction kernelspecs as [|[k0 s0] kernelspecs IH] using rev_ind.
  - split; [by intros ?%elem_of_nil|by intros (? & ? & ?%elem_of_nil & _)].
  - rewrite displayNameMap_snoc, Object_keys_set. simpl.
    assert (d ∈ Object_keys (displayNameMap kernelspecs) ++ [display_name s0]
            ↔ ∃ k s, (k, s) ∈ kernelspecs ++ [(k0, s0)] ∧ display_name s = d)
      as Hsnoc.
    { rewrite elem_of_app, list_elem_of_singleton, IH. split.
      - intros [(k & s & Hin & Hd)| ->].
        + exists k, s. split; [|done]. apply elem_of_app. by left.
        + exists k0, s0. split; [|done]. apply elem_of_app. right. by left.
      - intros (k & s & [Hin|Hin%list_elem_of_singleton]%elem_of_app & Hd).
        + left. by exists k, s.
        + right. by simplify_eq. }
    case_decide as Hin; [|done].
    rewrite <- Hsnoc, elem_of_app, list_elem_of_singleton.
    split; [by left|]. by intros [?| ->].
Qed.

(** Each display name is mapped to the kernel name enumerated last for it. *)
Lemma displayNameMap_get kernelspecs d :
  obj_get (displayNameMap kernelspecs) d = last_enumerated kernelspecs d.
Proof.
  unfold last_enumerated.
  induction kernelspecs as [|[k0 s0] kernelspecs IH] using rev_ind; [done|].
  rewrite displayNameMap_snoc, obj_get_set, filter_app. simpl.
  case_decide as Hd.
  - rewrite (filter_cons_True _ _ []) by done. by rewrite filter_nil, last_snoc.
  - rewrite (filter_cons_False _ _ []) by done.
    by rewrite filter_nil, app_nil_r.
Qed.

Section WithCollation.
Context (localeCompare : string → string → Z).
Context `{!Total (before localeCompare), !Transitive (before localeCompare)}.

(** Sorting the keys of the display-name map gives the same ascending,
    duplicate-free list of display names in whatever order the keys are
    listed. *)
Lemma sorted_keys_any_order (kernelspecs : KernelSpecs) (keys : list string) :
  keys ≡ₚ Object_keys (displayNameMap kernelspecs) →
  StronglySorted (before localeCompare) (sort localeCompare keys)
  ∧ NoDup (sort localeCompare keys)
  ∧ (∀ d, d ∈ sort localeCompare keys
          ↔ ∃ k s, (k, s) ∈ kernelspecs ∧ display_name s = d).
Proof.
  intros Hkeys. unfold sort. split_and!.
  - apply (StronglySorted_merge_sort _).
  - rewrite merge_sort_Permutation, Hkeys. apply displayNameMap_keys_NoDup.
  - intros d. by rewrite merge_sort_Permutation, Hkeys, displayNameMap_keys_elem_of.
Qed.

(** C10.  When [localeCompare] is a total and transitive comparison, the
    display names the launch entries are built from are in ascending order of
    [localeCompare], hold no name twice, and are exactly the display names of
    the kernel specs.  The notebook creators and the console-create commands
    are built from them one for one, in that order, and the entry of a display
    name carries the kernel name that was enumerated last among the kernels
    with that display name. *)
Theorem launch_entries_one_per_display_name_sorted (kernelspecs : KernelSpecs) :
  StronglySorted (before localeCompare) (displayNames localeCompare kernelspecs)
  ∧ NoDup (displayNames localeCompare kernelspecs)
  ∧ (∀ d, d ∈ displayNames localeCompare kernelspecs
          ↔ ∃ k s, (k, s) ∈ kernelspecs ∧ display_name s = d)
  ∧ (∀ d, d ∈ displayNames localeCompare kernelspecs →
          is_Some (last_enumerated kernelspecs d))
  ∧ creators localeCompare kernelspecs
    = creator_for kernelspecs <$> displayNames localeCompare kernelspecs
  ∧ console_creates localeCompare kernelspecs
    = console_create_for kernelspecs <$> displayNames localeCompare kernelspecs.
Proof.
  destruct (sorted_keys_any_order kernelspecs
              (Object_keys (displayNameMap kernelspecs)) (reflexivity _))
    as (Hsorted & Hnodup & Hdom).
  split_and!; [exact Hsorted|exact Hnodup|exact Hdom| | |].
  - intros d (k & s & Hin & Hd)%Hdom. unfold last_enumerated.
    rewrite fmap_is_Some, last_is_Some. intros Hnil.
    eapply (filter_nil_not_elem_of _ _ (k, s)); [exact Hnil|done|done].
  - unfold creators, creator_for. apply list_fmap_ext. intros _ d _.
    by rewrite displayNameMap_get.
  - unfold console_creates, console_create_for. apply list_fmap_ext.
    intros _ d _. by rewrite displayNameMap_get.
Qed.

End WithCollation.

Lemma by_length_total : Total (before by_length).
Proof. intros a b. unfold before, by_length. lia. Qed.

Lemma by_length_transitive : Transitive (before by_length).
Proof. intros a b c. unfold before, by_length. lia. Qed.

Lemma launch_entries_one_per_display_name_sorted_witness :
  Total (before by_length)
  ∧ Transitive (before by_length)
  ∧ creators by_length
      [("python3", mkKernelSpec "Python 3"); ("ir", mkKernelSpec "R");
       ("python3-alt", mkKernelSpec "Python 3")]
    = creator_for
        [("python3", mkKernelSpec "Python 3"); ("ir", mkKernelSpec "R");
         ("python3-alt", mkKernelSpec "Python 3")]
      <$> ["R"; "Python 3"].
Proof.
  split; [exact by_length_total|]. split; [exact by_length_transitive|].
  exact (proj1 (proj2 (proj2 (proj2 (proj2
    (@launch_entries_one_per_display_name_sorted by_length
       by_length_total by_length_transitive
       [("python3", mkKernelSpec "Python 3"); ("ir", mkKernelSpec "R");
        ("python3-alt", mkKernelSpec "Python 3")])))))).
Defined.

(** On that collection the two kernels named Python 3 share one creator, which
    launches the one enumerated last. *)
Example creators_shared_display_name :
  creators by_length
    [("python3", mkKernelSpec "Python 3"); ("ir", mkKernelSpec "R");
     ("python3-alt", mkKernelSpec "Python 3")]
  = [mkCreator "R Notebook" ".ipynb" "notebook" (Some "ir");
     mkCreator "Python 3 Notebook" ".ipynb" "notebook" (Some "python3-alt")].
Proof. reflexivity. Qed.

End LaunchProps.

(** ** The tracker over all events *)

Module TrackerProps.
Import Notebook Spec SetterProps DisposalProps FocusProps RegistrationProps.

Lemma disposed_slot_keeps_slots w t :
  disposedSlots (disposed_slot w t) = disposedSlots t.
Proof.
  unfold disposed_slot. cbv zeta. simpl.
  case_decide; [by rewrite set_null|done].
Qed.

Lemma emit_disposed_keeps_slots w t :
  disposedSlots (emit_disposed w t) = disposedSlots t.
Proof.
  unfold emit_disposed. generalize (disposedSlots t) at 1 as slots.
  intros slots. revert t. induction slots as [|q slots IH]; intros t; [done|].
  simpl. rewrite IH. case_decide; [apply disposed_slot_keeps_slots|done].
Qed.

Lemma emit_disposed_emits_nothing w t :
  emitted (emit_disposed w t) = emitted t.
Proof. apply (emit_disposed_fold w (disposedSlots t) t). Qed.

(** Slots connected to other panels do not run. *)
Lemma fold_slots_skip w slots t :
  w ∉ slots →
  foldl (λ t' q, if decide (q = w) then disposed_slot w t' else t') t slots = t.
Proof.
  revert t. induction slots as [|q slots IH]; intros t Hw; [done|].
  apply not_elem_of_cons in Hw as [Hne Hw]. simpl.
  rewrite decide_False by done. by apply IH.
Qed.

(** What one event does to the tracker: nothing, the activation of a tracked
    panel, the registration of a new one, or a disposal. *)
Lemma step_cases t e :
  step t e = t
  ∨ (∃ p, p ∈ _widgets t ∧ _activeWidget t ≠ Some p
          ∧ step t e =
              {| _activeWidget := Some p; _widgets := _widgets t;
                 disposedSlots := disposedSlots t;
                 emitted := emitted t ++ [Some p] |})
  ∨ (∃ p, (p ∉ _widgets t) ∧ _activeWidget t ≠ Some p
          ∧ registered_handle e = Some p
          ∧ step t e =
              {| _activeWidget := _activeWidget t; _widgets := _widgets t ++ [p];
                 disposedSlots := disposedSlots t ++ [p];
                 emitted := emitted t |})
  ∨ (∃ w, e = Disposed w).
Proof.
  assert (∀ widget,
    set_activeNotebook widget t = t
    ∨ (∃ p, p ∈ _widgets t ∧ _activeWidget t ≠ Some p
            ∧ set_activeNotebook widget t =
                {| _activeWidget := Some p; _widgets := _widgets t;
                   disposedSlots := disposedSlots t;
                   emitted := emitted t ++ [Some p] |})
    ∨ (∃ p, (p ∉ _widgets t) ∧ _activeWidget t ≠ Some p ∧ widget = Some p
            ∧ set_activeNotebook widget t =
                {| _activeWidget := _activeWidget t;
                   _widgets := _widgets t ++ [p];
                   disposedSlots := disposedSlots t ++ [p];
                   emitted := emitted t |})) as Hset.
  { intros [p|]; [|left; apply set_null].
    destruct (decide (_activeWidget t = Some p)) as [Hact|Hact].
    { left. by apply set_same. }
    destruct (decide (p ∈ _widgets t)) as [Hin|Hin].
    - right; left. exists p. by rewrite set_tracked.
    - right; right. exists p. by rewrite set_untracked. }
  destruct e as [w|w|d target|w]; simpl.
  - destruct (Hset (Some w)) as [?|[?|(p & ? & ? & ? & ?)]]; [by left|by right; left|].
    right; right; left. by exists p.
  - destruct (Hset w) as [?|[?|(p & ? & ? & ? & ?)]]; [by left|by right; left|].
    right; right; left. by exists p.
  - destruct (focus_listener_cases d target t) as [->|(w & Hin & ->)]; [by left|].
    destruct (Hset (Some w)) as [?|[?|(p & Hp & _ & [= <-] & _)]];
      [by left|by right; left|done].
  - right; right; right. by exists w.
Qed.

(** Induction over the reachable states. *)
Lemma reachable_induction (P : ActiveNotebook → Prop) :
  P initial →
  (∀ t e, reachable t → P t → P (step t e)) →
  ∀ t, reachable t → P t.
Proof.
  intros Hinit Hstep t [es ->]. unfold run.
  induction es as [|e es IH] using rev_ind; [done|].
  rewrite foldl_snoc. apply Hstep; [by exists es|done].
Qed.

(** X1.  In every state the tracker can reach, by any sequence of creations,
    [setActive] calls, focus events and disposals, no panel is tracked
    twice. *)
Theorem tracked_panels_never_repeat (t : ActiveNotebook) :
  reachable t → NoDup (_widgets t).
Proof.
  revert t. apply (reachable_induction (λ t, NoDup (_widgets t))); [constructor|].
  intros t e _ Hnd. by apply step_NoDup.
Qed.

Lemma tracked_panels_never_repeat_witness :
  reachable (run initial [CreateNew 1%nat; CreateNew 1%nat; CreateNew 2%nat])
  ∧ NoDup (_widgets (run initial [CreateNew 1%nat; CreateNew 1%nat; CreateNew 2%nat])).
Proof.
  assert (reachable (run initial [CreateNew 1%nat; CreateNew 1%nat; CreateNew 2%nat]))
    as H by by eexists.
  split; [exact H|]. exact (tracked_panels_never_repeat _ H).
Defined.

(** The log of notifications and the active reference move together. *)
Lemma notification_log_invariant t :
  reachable t →
  (None ∉ emitted t)
  ∧ _activeWidget t = default None (last (emitted t))
  ∧ (∀ i x y, emitted t !! i = Some x → emitted t !! S i = Some y → x ≠ y).
Proof.
  revert t. apply (reachable_induction (λ t,
    (None ∉ emitted t)
    ∧ _activeWidget t = default None (last (emitted t))
    ∧ (∀ i x y, emitted t !! i = Some x → emitted t !! S i = Some y → x ≠ y))).
  { split_and!; [apply not_elem_of_nil|done|]. intros i x y Hx. by destruct i. }
  intros t e _ (Hnull & Hlast & Hadj).
  destruct (step_cases t e)
    as [->|[(p & Hin & Hact & ->)|[(p & Hin & Hact & _ & ->)|[w ->]]]]; simpl.
  - done.
  - split_and!.
    + rewrite elem_of_app, list_elem_of_singleton. intros [?|?]; done.
    + by rewrite last_snoc.
    + intros i x y [[Hi Hx]|[-> <-]]%lookup_snoc_Some Hy.
      * apply lookup_snoc_Some in Hy as [[_ Hy]|[Hlen <-]]; [by eapply Hadj|].
        intros ->. apply Hact. rewrite Hlast, last_lookup.
        replace (pred (length (emitted t))) with i by lia. by rewrite Hx.
      * apply lookup_snoc_Some in Hy as [[? _]|[? _]]; lia.
  - done.
  - by rewrite emit_disposed_keeps_active, emit_disposed_emits_nothing.
Qed.





(** X4.  In every reachable state, two notifications in a row never carry the
    same panel. *)
Theorem consecutive_notifications_differ
    (t : ActiveNotebook) (i : nat) (x y : option Panel) :
  reachable t →
  emitted t !! i = Some x → emitted t !! S i = Some y → x ≠ y.
Proof. intros H. apply (notification_log_invariant t H). Qed.

Lemma consecutive_notifications_differ_witness :
  reachable (run initial [CreateNew 1%nat; CreateNew 2%nat; Focus own_node 1%nat;
                          Focus own_node 1%nat; Focus own_node 2%nat])
  ∧ Some 1%nat ≠ Some 2%nat.
Proof.
  assert (reachable (run initial [CreateNew 1%nat; CreateNew 2%nat;
    Focus own_node 1%nat; Focus own_node 1%nat; Focus own_node 2%nat]))
    as H by by eexists.
  split; [exact H|].
  exact (consecutive_notifications_differ _ 0%nat (Some 1%nat) (Some 2%nat)
           H eq_refl eq_refl).
Defined.

End TrackerProps.

(** ** Registration, activation and disposal in sequence *)

Module LifecycleProps.
Import Notebook Spec SetterProps DisposalProps FocusProps RegistrationProps.
Import TrackerProps.

(** X5.  Once the tracker has an active panel, no sequence of events brings
    the active reference back to [null]. *)
Theorem active_never_returns_to_null (t : ActiveNotebook) (es : list Event) :
  is_Some (activeNotebook t) → is_Some (activeNotebook (run t es)).
Proof.
  unfold run, activeNotebook. revert t.
  induction es as [|e es IH]; intros t Hsome; [done|].
  simpl. apply IH.
  destruct (step_cases t e)
    as [->|[(p & _ & _ & ->)|[(p & _ & _ & _ & ->)|[w ->]]]]; simpl; [done| |done|].
  - by eexists.
  - by rewrite emit_disposed_keeps_active.
Qed.

Lemma active_never_returns_to_null_witness :
  is_Some (activeNotebook (run initial [CreateNew 1%nat; Focus own_node 1%nat]))
  ∧ is_Some (activeNotebook
               (run (run initial [CreateNew 1%nat; Focus own_node 1%nat])
                    [Disposed 1%nat; SetActive None; Focus own_node 9%nat])).
Proof.
  assert (is_Some (activeNotebook
    (run initial [CreateNew 1%nat; Focus own_node 1%nat]))) as H by by eexists.
  split; [exact H|]. exact (active_never_returns_to_null _ _ H).
Defined.

Lemma reachable_tracked_subscribed (t : ActiveNotebook) (p : Panel) :
  reachable t → p ∈ _widgets t → p ∈ disposedSlots t.
Proof.
  intros Hr. revert p. revert t Hr.
  apply (reachable_induction
           (λ t, ∀ p, p ∈ _widgets t → p ∈ disposedSlots t)).
  { intros p []%elem_of_nil. }
  intros t e _ Hinv p.
  destruct (step_cases t e)
    as [->|[(q & _ & _ & ->)|[(q & _ & _ & _ & ->)|[w ->]]]]; simpl.
  - apply Hinv.
  - apply Hinv.
  - rewrite !elem_of_app. intros [?|?]; [left; by apply Hinv|by right].
  - rewrite emit_disposed_keeps_slots. intros Hp. apply Hinv.
    eapply elem_of_sublist; [exact Hp|apply emit_disposed_sublist].
Qed.

(** X6.  In every reachable state, every tracked panel has a slot connected to
    its disposal signal. *)
Theorem tracked_panels_are_subscribed (t : ActiveNotebook) (p : Panel) :
  reachable t → p ∈ _widgets t → p ∈ disposedSlots t.
Proof. apply reachable_tracked_subscribed. Qed.

Lemma tracked_panels_are_subscribed_witness :
  reachable (run initial [CreateNew 1%nat; CreateNew 2%nat; Disposed 1%nat])
  ∧ (2%nat ∈ _widgets (run initial [CreateNew 1%nat; CreateNew 2%nat; Disposed 1%nat]))
  ∧ (2%nat ∈ disposedSlots
       (run initial [CreateNew 1%nat; CreateNew 2%nat; Disposed 1%nat])).
Proof.
  assert (reachable (run initial [CreateNew 1%nat; CreateNew 2%nat; Disposed 1%nat]))
    as Hr by by eexists.
  assert (2%nat ∈ _widgets
    (run initial [CreateNew 1%nat; CreateNew 2%nat; Disposed 1%nat])) as Hin.
  { vm_compute. by left. }
  split; [exact Hr|]. split; [exact Hin|].
  exact (tracked_panels_are_subscribed _ _ Hr Hin).
Defined.



(** X8.  When a disposal slot runs for a panel that is not tracked, [indexOf]
    yields [-1] and [splice(-1, 1)] removes the last tracked panel instead;
    the active reference is not touched.  The console's slot removes the last
    console in the same way. *)
Theorem slot_for_untracked_panel_drops_last :
  (∀ t w, w ∉ _widgets t →
     _widgets (disposed_slot w t) = removelast (_widgets t)
     ∧ activeNotebook (disposed_slot w t) = activeNotebook t)
  ∧ (∀ s c, c ∉ Console.widgets s →
     Console.widgets (Console.disposed_slot c s) = removelast (Console.widgets s)).
Proof.
  split.
  - intros t w Hw. split; [|apply disposed_slot_keeps_active].
    unfold disposed_slot. cbv zeta.
    rewrite (indexOf_absent _ _ Hw), splice1_minus_one.
    case_decide; [by rewrite set_null|done].
  - intros s c Hc. unfold Console.disposed_slot. cbv zeta.
    rewrite (indexOf_absent _ _ Hc), splice1_minus_one. by case_decide.
Qed.

Lemma slot_for_untracked_panel_drops_last_witness :
  (1%nat ∉ _widgets (run initial [CreateNew 1%nat; CreateNew 2%nat; Disposed 1%nat]))
  ∧ _widgets (disposed_slot 1%nat
                (run initial [CreateNew 1%nat; CreateNew 2%nat; Disposed 1%nat]))
    = [].
Proof.
  assert (1%nat ∉ _widgets
    (run initial [CreateNew 1%nat; CreateNew 2%nat; Disposed 1%nat])) as H.
  { vm_compute. by intros [?|[]%elem_of_nil]%elem_of_cons. }
  split; [exact H|].
  exact (proj1 (proj1 slot_for_untracked_panel_drops_last _ _ H)).
Defined.

(** X9.  A first [setActive(p)] with a panel that is neither tracked nor active
    registers it; a second one makes it the active panel and emits one
    notification with value [p]; a third one changes nothing. *)
Theorem second_setActive_activates (t : ActiveNotebook) (p : Panel) :
  p ∉ _widgets t → activeNotebook t ≠ Some p →
  set_activeNotebook (Some p) (set_activeNotebook (Some p) t) =
    {| _activeWidget := Some p; _widgets := _widgets t ++ [p];
       disposedSlots := disposedSlots t ++ [p];
       emitted := emitted t ++ [Some p] |}
  ∧ set_activeNotebook (Some p)
      (set_activeNotebook (Some p) (set_activeNotebook (Some p) t))
    = set_activeNotebook (Some p) (set_activeNotebook (Some p) t).
Proof.
  intros Hin Hact.
  assert (set_activeNotebook (Some p) (set_activeNotebook (Some p) t) =
    {| _activeWidget := Some p; _widgets := _widgets t ++ [p];
       disposedSlots := disposedSlots t ++ [p];
       emitted := emitted t ++ [Some p] |}) as Htwice.
  { rewrite (set_untracked t p) by done. rewrite set_tracked; simpl; [done..|].
    apply elem_of_app. right. by left. }
  split; [exact Htwice|]. rewrite Htwice. by apply set_same.
Qed.

Lemma second_setActive_activates_witness :
  (1%nat ∉ _widgets initial)
  ∧ activeNotebook initial ≠ Some 1%nat
  ∧ set_activeNotebook (Some 1%nat) (set_activeNotebook (Some 1%nat) initial) =
      {| _activeWidget := Some 1%nat; _widgets := [1%nat];
         disposedSlots := [1%nat]; emitted := [Some 1%nat] |}.
Proof.
  assert (1%nat ∉ _widgets initial) as Hin by (simpl; apply not_elem_of_nil).
  assert (activeNotebook initial ≠ Some 1%nat) as Hact by (simpl; discriminate).
  split; [exact Hin|]. split; [exact Hact|].
  exact (proj1 (second_setActive_activates initial 1%nat Hin Hact)).
Defined.

(** The focus listener never changes the tracked panels or the connected
    slots. *)
Lemma focus_listener_frame d target t :
  _widgets (focus_listener d target t) = _widgets t
  ∧ disposedSlots (focus_listener d target t) = disposedSlots t.
Proof.
  destruct (focus_listener_cases d target t) as [->|(w & Hin & ->)]; [done|].
  destruct (decide (_activeWidget t = Some w)) as [Hact|Hact].
  - by rewrite set_same.
  - by rewrite set_tracked.
Qed.

(** X10.  Handling the same focus event twice is the same as handling it
    once: the second time nothing changes and nothing is emitted.  A focus
    event never changes which panels are tracked. *)
Theorem focus_event_is_idempotent (d : Dom) (target : Node) (t : ActiveNotebook) :
  focus_listener d target (focus_listener d target t) = focus_listener d target t
  ∧ _widgets (focus_listener d target t) = _widgets t.
Proof.
  split; [|apply focus_listener_frame].
  unfold focus_listener at 1. rewrite (proj1 (focus_listener_frame d target t)).
  unfold focus_listener.
  assert (∀ ws, (∀ w, w ∈ ws → w ∈ _widgets t) →
    focus_loop d target ws (focus_loop d target ws t) = focus_loop d target ws t)
    as Hgen.
  { induction ws as [|w ws IH]; intros Hsub; [done|].
    destruct (holds_focus d target w) eqn:Hw.
    - rewrite !focus_loop_hit by done. apply set_same.
      destruct (decide (_activeWidget t = Some w)) as [Hact|Hact].
      + by rewrite set_same.
      + rewrite set_tracked; [done..|]. apply Hsub. by left.
    - rewrite !focus_loop_skip by done. apply IH.
      intros q Hq. apply Hsub. by right. }
  by apply Hgen.
Qed.

End LifecycleProps.

(** ** What disposal removes *)

Module RemovalProps.
Import Notebook Spec SetterProps DisposalProps FocusProps RegistrationProps.
Import TrackerProps LifecycleProps.

(** X11.  Whatever the sequence of events, disposals included, a tracked panel
    was handed to the tracker by [createNew] or by [setActive]: focus events
    and disposals never add a panel. *)
Theorem tracked_panels_were_registered (es : list Event) (p : Panel) :
  p ∈ _widgets (run initial es) → p ∈ omap registered_handle es.
Proof.
  unfold run. revert p. induction es as [|e es IH] using rev_ind; intros p.
  { by intros []%elem_of_nil. }
  rewrite foldl_snoc, omap_app, elem_of_app.
  destruct (step_cases (foldl step initial es) e)
    as [->|[(q & _ & _ & ->)|[(q & _ & _ & Hreg & ->)|[w ->]]]]; simpl.
  - intros Hp. left. by apply IH.
  - intros Hp. left. by apply IH.
  - rewrite Hreg. simpl.
    intros [Hp|Hp]%elem_of_app; [left; by apply IH|by right].
  - intros Hp. left. apply IH.
    eapply elem_of_sublist; [exact Hp|apply emit_disposed_sublist].
Qed.

Lemma tracked_panels_were_registered_witness :
  (2%nat ∈ _widgets (run initial [CreateNew 1%nat; SetActive (Some 2%nat);
                                  Disposed 1%nat; Focus own_node 2%nat]))
  ∧ (2%nat ∈ omap registered_handle
       [CreateNew 1%nat; SetActive (Some 2%nat); Disposed 1%nat;
        Focus own_node 2%nat]).
Proof.
  assert (2%nat ∈ _widgets
    (run initial [CreateNew 1%nat; SetActive (Some 2%nat);
                  Disposed 1%nat; Focus own_node 2%nat])) as H.
  { vm_compute. by left. }
  split; [exact H|]. exact (tracked_panels_were_registered _ _ H).
Defined.

(** Running the slots of [w]: once one of them has run, or if [w] was not
    tracked to begin with, [w] is not tracked at the end. *)
Lemma fold_slots_removes w slots t :
  NoDup (_widgets t) → w ∈ slots ∨ w ∉ _widgets t →
  w ∉ _widgets
        (foldl (λ t' q, if decide (q = w) then disposed_slot w t' else t') t slots).
Proof.
  revert t. induction slots as [|q slots IH]; intros t Hnd Hor.
  { destruct Hor as [[]%elem_of_nil|?]; done. }
  simpl. destruct (decide (q = w)) as [->|Hne].
  - apply IH.
    + eapply sublist_NoDup; [exact Hnd|apply disposed_slot_sublist].
    + right. destruct (decide (w ∈ _widgets t)) as [Hin|Hin].
      * by apply disposed_slot_removes.
      * intros Hin'. apply Hin.
        eapply elem_of_sublist; [exact Hin'|apply disposed_slot_sublist].
  - apply IH; [done|]. destruct Hor as [[?|?]%elem_of_cons|?]; [done|by left|by right].
Qed.

(** X12.  In every reachable state, once the disposal signal of a panel has
    fired the panel is not tracked. *)
Theorem disposed_panel_is_not_tracked (t : ActiveNotebook) (w : Panel) :
  reachable t → w ∉ _widgets (emit_disposed w t).
Proof.
  intros Hr. apply fold_slots_removes; [by apply reachable_NoDup|].
  destruct (decide (w ∈ _widgets t)) as [Hin|Hin]; [left|by right].
  by apply reachable_tracked_subscribed.
Qed.

Lemma disposed_panel_is_not_tracked_witness :
  reachable (run initial [CreateNew 1%nat; CreateNew 2%nat; Focus own_node 2%nat])
  ∧ (2%nat ∉ _widgets
       (emit_disposed 2%nat
          (run initial [CreateNew 1%nat; CreateNew 2%nat; Focus own_node 2%nat]))).
Proof.
  assert (reachable
    (run initial [CreateNew 1%nat; CreateNew 2%nat; Focus own_node 2%nat]))
    as H by by eexists.
  split; [exact H|]. exact (disposed_panel_is_not_tracked _ 2%nat H).
Defined.

(** As long as nothing was disposed, the connected slots are the tracked
    panels. *)
Lemma slots_without_disposal es :
  Forall (λ e, is_disposal e = false) es →
  disposedSlots (run initial es) = _widgets (run initial es).
Proof.
  unfold run. induction es as [|e es IH] using rev_ind; intros Hes; [done|].
  apply Forall_app in Hes as [Hes [He _]%Forall_cons].
  rewrite foldl_snoc.
  destruct (step_cases (foldl step initial es) e)
    as [->|[(q & _ & _ & ->)|[(q & _ & _ & _ & ->)|[w ->]]]]; simpl.
  - by apply IH.
  - by apply IH.
  - by rewrite IH.
  - done.
Qed.

Lemma filter_ne_absent (l : list Panel) w :
  w ∉ l → filter (λ q, q ≠ w) l = l.
Proof.
  induction l as [|a l IH]; [done|]. intros [Hne Hw]%not_elem_of_cons.
  rewrite filter_cons_True by done. f_equal. by apply IH.
Qed.

Lemma delete_NoDup_filter (l : list Panel) i w :
  NoDup l → l !! i = Some w → delete i l = filter (λ q, q ≠ w) l.
Proof.
  intros Hnd. revert i. induction Hnd as [|a l Ha Hnd IH]; intros i Hi; [done|].
  destruct i as [|i]; simpl in *.
  - injection Hi as ->. rewrite filter_cons_False by tauto.
    by rewrite filter_ne_absent.
  - rewrite filter_cons_True.
    + f_equal. by apply IH.
    + intros ->. apply Ha. by eapply list_elem_of_lookup_2.
Qed.

(** X13.  After a history without disposals, the disposal of a tracked panel
    removes that panel and nothing else: the other panels stay tracked, in
    their order, and nothing is emitted. *)
Theorem disposal_removes_exactly_the_panel (es : list Event) (w : Panel) :
  Forall (λ e, is_disposal e = false) es →
  w ∈ _widgets (run initial es) →
  _widgets (emit_disposed w (run initial es))
    = filter (λ q, q ≠ w) (_widgets (run initial es))
  ∧ emitted (emit_disposed w (run initial es)) = emitted (run initial es).
Proof.
  intros Hes Hin. split; [|apply emit_disposed_emits_nothing].
  pose proof (reachable_NoDup (run initial es) ltac:(by eexists)) as Hnd.
  assert (emit_disposed w (run initial es) = disposed_slot w (run initial es))
    as ->.
  { unfold emit_disposed. rewrite slots_without_disposal by done.
    destruct (list_elem_of_split _ _ Hin) as (l1 & l2 & Hsplit).
    assert ((w ∉ l1) ∧ (w ∉ l2)) as [Hl1 Hl2].
    { rewrite Hsplit in Hnd.
      apply NoDup_app in Hnd as (_ & Hl1 & [Hl2 _]%NoDup_cons).
      split; [|done]. intros Hw. apply (Hl1 w Hw). by left. }
    rewrite Hsplit, foldl_app. simpl. rewrite decide_True by done.
    by rewrite (fold_slots_skip w l1), (fold_slots_skip w l2). }
  destruct (indexOf_present _ _ Hin) as (i & Hidx & Hi & _).
  assert (_widgets (disposed_slot w (run initial es))
          = delete i (_widgets (run initial es))) as ->.
  { unfold disposed_slot. rewrite Hidx, splice1_in_range. cbv zeta.
    case_decide; [by rewrite set_null|done]. }
  by apply delete_NoDup_filter.
Qed.

Lemma disposal_removes_exactly_the_panel_witness :
  Forall (λ e, is_disposal e = false)
    [CreateNew 1%nat; CreateNew 2%nat; CreateNew 3%nat; Focus own_node 2%nat]
  ∧ (2%nat ∈ _widgets (run initial
       [CreateNew 1%nat; CreateNew 2%nat; CreateNew 3%nat; Focus own_node 2%nat]))
  ∧ _widgets (emit_disposed 2%nat (run initial
       [CreateNew 1%nat; CreateNew 2%nat; CreateNew 3%nat; Focus own_node 2%nat]))
    = [1%nat; 3%nat].
Proof.
  assert (Forall (λ e, is_disposal e = false)
    [CreateNew 1%nat; CreateNew 2%nat; CreateNew 3%nat; Focus own_node 2%nat])
    as Hes by by repeat constructor.
  assert (2%nat ∈ _widgets (run initial
    [CreateNew 1%nat; CreateNew 2%nat; CreateNew 3%nat; Focus own_node 2%nat]))
    as Hin.
  { vm_compute. right. by left. }
  split; [exact Hes|]. split; [exact Hin|].
  exact (proj1 (disposal_removes_exactly_the_panel _ _ Hes Hin)).
Defined.

End RemovalProps.

(** ** Where the notebook commands go *)

Module RoutingProps.
Import Notebook NotebookCommands Notions.

(** X14.  With active panel [w], every host call made by a notebook command
    handler acts on [w] (its content, clipboard, context, node or kernel) and
    on no other panel, and the handler leaves the tracker as it was. *)
Theorem commands_act_on_active_panel
    (context_kernel : Panel → option Kernel) (c : Command)
    (t : ActiveNotebook) (w : Panel) :
  activeNotebook t = Some w →
  (handler context_kernel c t).1 = t
  ∧ Forall (acts_on context_kernel w) (handler context_kernel c t).2.
Proof.
  intros Hact. unfold handler. rewrite Hact. split; [done|].
  destruct c; simpl; try (by repeat constructor).
  destruct (context_kernel w) as [k|] eqn:Hk; by repeat constructor.
Qed.

Lemma commands_act_on_active_panel_witness :
  activeNotebook (Notebook.run initial [CreateNew 1%nat; CreateNew 2%nat;
                                        Focus Spec.own_node 2%nat])
  = Some 2%nat
  ∧ Forall (acts_on (λ _, None) 2%nat)
      (handler (λ _, None) undo
         (Notebook.run initial [CreateNew 1%nat; CreateNew 2%nat;
                                Focus Spec.own_node 2%nat])).2.
Proof.
  assert (activeNotebook
    (Notebook.run initial [CreateNew 1%nat; CreateNew 2%nat;
                           Focus Spec.own_node 2%nat]) = Some 2%nat) as H
    by reflexivity.
  split; [exact H|].
  exact (proj2 (commands_act_on_active_panel (λ _, None) undo _ 2%nat H)).
Defined.

End RoutingProps.

(** ** The console plugin over time *)

Module ConsoleProps.
Import Console ConsoleRun Notions.

Lemma console_fold_slots_untracked c slots s :
  widgets s = [] → activeWidget s = None →
  let s' := foldl (λ s' w, if decide (w = c) then disposed_slot c s' else s')
                  s slots in
  widgets s' = [] ∧ activeWidget s' = None ∧ count s' = count s.
Proof.
  revert s. induction slots as [|q slots IH]; intros s Hw Ha; simpl; [done|].
  case_decide; [|by apply IH].
  assert (disposed_slot c s =
          {| widgets := []; activeWidget := None;
             disposedSlots := disposedSlots s; count := count s |}) as ->.
  { unfold disposed_slot. by rewrite Hw, Ha. }
  exact (IH (mkPrivate [] None (disposedSlots s) (count s)) eq_refl eq_refl).
Qed.

Lemma console_focus_loop_count d target ws s :
  count (focus_loop d target ws s) = count s.
Proof.
  induction ws as [|w ws IH]; simpl; [done|].
  by destruct (isAttached d w && isVisible d w), (node_contains d w target).
Qed.

Lemma console_fold_slots_count c slots s :
  count (foldl (λ s' w, if decide (w = c) then disposed_slot c s' else s')
               s slots) = count s.
Proof.
  revert s. induction slots as [|q slots IH]; intros s; simpl; [done|].
  rewrite IH. case_decide; [|done]. unfold disposed_slot. by case_decide.
Qed.

(** X15.  Nothing ever adds a console to [Private.widgets]: whatever happens,
    no console is tracked, the active console stays [null], and the
    [console:clear] and [console:execute] commands never reach a console. *)
Theorem console_is_never_tracked (es : list Event) :
  widgets (run initial es).1 = []
  ∧ activeWidget (run initial es).1 = None
  ∧ hostCalls (run initial es).2 = [].
Proof.
  assert (∀ s, widgets s = [] → activeWidget s = None →
    widgets (run s es).1 = [] ∧ activeWidget (run s es).1 = None
    ∧ hostCalls (run s es).2 = []) as Hgen; [|by apply Hgen].
  induction es as [|e es IH]; intros s Hw Ha; [done|].
  assert (widgets (step s e).1 = [] ∧ activeWidget (step s e).1 = None
          ∧ hostCalls (step s e).2 = []) as (Hw' & Ha' & Hout).
  { destruct e as [k|c|d target|c|c]; simpl.
    - done.
    - done.
    - unfold focus_listener. by rewrite Hw.
    - destruct (console_fold_slots_untracked c (disposedSlots s) s Hw Ha)
        as (? & ? & _). done.
    - unfold handler. by rewrite Ha. }
  simpl. destruct (step s e) as [s' out]. simpl in *.
  destruct (IH s' Hw' Ha') as (? & ? & Hout').
  destruct (run s' es) as [s'' out']. simpl in *.
  unfold hostCalls in *. by rewrite omap_app, Hout, Hout'.
Qed.

(** X16.  As long as the counter stays within the integers a number holds
    exactly (up to 2^53), the notebook paths of the sessions the console
    plugin asks for are [Console-n] for consecutive [n], starting at the
    current count: no two consoles get the same path, whichever kernels they
    are created for and whatever happens in between. *)
Theorem console_paths_are_fresh (s : Private) (es : list Event) :
  (Z.of_nat (count (run s es).1) ≤ 2 ^ 53)%Z →
  count s ≤ count (run s es).1
  ∧ notebookPaths (run s es).2
    = (λ n, "Console-" +:+ pretty n) <$> seq (count s) (count (run s es).1 - count s)
  ∧ NoDup (notebookPaths (run s es).2).
Proof.
  intros _.
  assert (count s ≤ count (run s es).1
    ∧ notebookPaths (run s es).2
      = (λ n, "Console-" +:+ pretty n)
          <$> seq (count s) (count (run s es).1 - count s)) as [Hle Hpaths].
  { revert s. induction es as [|e es IH]; intros s.
    { simpl. by rewrite Nat.sub_diag. }
    simpl.
    assert ((∃ k, e = Create k)
            ∨ (count (step s e).1 = count s ∧ notebookPaths (step s e).2 = []))
      as [[k ->]|[Hc Hout]].
    { destruct e as [k|c|d target|c|c]; simpl.
      - left. by exists k.
      - by right.
      - right. split; [apply console_focus_loop_count|done].
      - right. split; [apply console_fold_slots_count|done].
      - right. unfold handler. destruct (activeWidget s); simpl; [|done].
        split; [done|]. unfold notebookPaths. by destruct c. }
    - simpl. specialize (IH (mkPrivate (widgets s) (activeWidget s)
                                       (disposedSlots s) (S (count s)))).
      destruct (run _ es) as [s'' out']. simpl in *. destruct IH as [Hle ->].
      split; [lia|].
      replace (count s'' - count s) with (S (count s'' - S (count s))) by lia.
      done.
    - destruct (step s e) as [s' out]. simpl in *. specialize (IH s').
      destruct (run s' es) as [s'' out']. simpl in *. destruct IH as [Hle Hp].
      split; [lia|]. unfold notebookPaths in *.
      by rewrite omap_app, Hout, Hp, Hc. }
  split_and!; [done..|]. rewrite Hpaths.
  apply NoDup_fmap_2_strong; [|apply NoDup_seq].
  intros n m _ _ Heq. by apply (inj _), (inj pretty) in Heq.
Qed.

Lemma console_paths_are_fresh_witness :
  (Z.of_nat (count (run initial
     [Create "ir"; SessionStarted 1%nat; Create "python3"; Create "ir"]).1)
   ≤ 2 ^ 53)%Z
  ∧ notebookPaths (run initial
      [Create "ir"; SessionStarted 1%nat; Create "python3"; Create "ir"]).2
    = ["Console-0"; "Console-1"; "Console-2"].
Proof.
  assert (Z.of_nat (count (run initial
    [Create "ir"; SessionStarted 1%nat; Create "python3"; Create "ir"]).1)
    ≤ 2 ^ 53)%Z as H by (by vm_compute).
  split; [exact H|].
  exact (proj1 (proj2 (console_paths_are_fresh initial _ H))).
Defined.

End ConsoleProps.

(** ** More on the launch entries *)

Module LaunchEntryProps.
Import Launch Spec Notions LaunchProps.

Lemma append_cons a (s1 s2 : string) :
  String a s1 +:+ s2 = String a (s1 +:+ s2).
Proof. reflexivity. Qed.

Lemma append_length (s1 s2 : string) :
  String.length (s1 +:+ s2) = String.length s1 + String.length s2.
Proof.
  induction s1 as [|a s1 IH]; [done|]. rewrite append_cons. simpl. by rewrite IH.
Qed.

(** Two strings with the same suffix appended are equal only if they are. *)
Lemma append_inj_r (t s1 s2 : string) : s1 +:+ t = s2 +:+ t → s1 = s2.
Proof.
  revert s2. induction s1 as [|a s1 IH]; intros [|b s2] Heq.
  - done.
  - apply (f_equal String.length) in Heq.
    rewrite append_cons in Heq. change ("" +:+ t) with t in Heq.
    simpl in Heq. rewrite append_length in Heq. lia.
  - apply (f_equal String.length) in Heq.
    rewrite append_cons in Heq. change ("" +:+ t) with t in Heq.
    simpl in Heq. rewrite append_length in Heq. lia.
  - rewrite !append_cons in Heq. injection Heq as -> Heq. f_equal. by apply IH.
Qed.

Lemma displayNameMap_keys_display_names kernelspecs d :
  d ∈ Object_keys (displayNameMap kernelspecs) ↔ d ∈ display_names kernelspecs.
Proof.
  rewrite displayNameMap_keys_elem_of. unfold display_names.
  rewrite list_elem_of_fmap. split.
  - intros (k & s & Hin & <-). by exists (k, s).
  - intros ([k s] & -> & Hin). by exists k, s.
Qed.

(** When the last kernel enumerated for a display name is [k]. *)
Lemma last_enumerated_Some kernelspecs d k :
  last_enumerated kernelspecs d = Some k
  ↔ ∃ l1 s l2, kernelspecs = l1 ++ (k, s) :: l2 ∧ display_name s = d
               ∧ Forall (λ ks, display_name ks.2 ≠ d) l2.
Proof.
  unfold last_enumerated.
  induction kernelspecs as [|[k0 s0] kernelspecs IH] using rev_ind.
  { split; [done|]. intros (l1 & s & l2 & Heq & _). by destruct l1. }
  rewrite filter_app.
  assert (∀ l1 s l2,
    kernelspecs ++ [(k0, s0)] = l1 ++ (k, s) :: l2 →
    (l2 = [] ∧ kernelspecs = l1 ∧ k0 = k ∧ s0 = s)
    ∨ ∃ l2', l2 = l2' ++ [(k0, s0)] ∧ kernelspecs = l1 ++ (k, s) :: l2')
    as Hsplit.
  { intros l1 s l2 Heq. destruct l2 as [|y l2' _] using rev_ind.
    - apply app_inj_tail in Heq as [-> [= -> ->]]. by left.
    - right. exists l2'.
      rewrite app_comm_cons, app_assoc in Heq.
      by apply app_inj_tail in Heq as [-> ->]. }
  destruct (decide (display_name s0 = d)) as [Hd|Hd].
  - rewrite (filter_cons_True _ _ []) by done. rewrite filter_nil, last_snoc.
    simpl. split.
    + intros [= ->]. exists kernelspecs, s0, []. by split_and!.
    + intros (l1 & s & l2 & Heq & Hs & Hl2).
      destruct (Hsplit _ _ _ Heq) as [(_ & _ & -> & _)|(l2' & -> & _)]; [done|].
      apply Forall_app in Hl2 as [_ [Hne _]%Forall_cons]. done.
  - rewrite (filter_cons_False _ _ []) by done. rewrite filter_nil, app_nil_r.
    rewrite IH. split.
    + intros (l1 & s & l2 & -> & Hs & Hl2).
      exists l1, s, (l2 ++ [(k0, s0)]). split_and!; [|done|].
      * by rewrite app_comm_cons, app_assoc.
      * apply Forall_app. split; [done|]. by repeat constructor.
    + intros (l1 & s & l2 & Heq & Hs & Hl2).
      destruct (Hsplit _ _ _ Heq) as [(_ & _ & _ & ->)|(l2' & -> & ->)]; [done|].
      exists l1, s, l2'. split_and!; [done..|].
      by apply Forall_app in Hl2 as [? _].
Qed.

Lemma NoDup_fst_functional {A B} (l : list (A * B)) k a b :
  NoDup (l.*1) → (k, a) ∈ l → (k, b) ∈ l → a = b.
Proof.
  induction l as [|[k0 c] l IH]; simpl; [by intros _ []%elem_of_nil|].
  intros [Hk0 Hnd]%NoDup_cons [[= -> ->]|Ha]%elem_of_cons [[= ->]|Hb]%elem_of_cons.
  - done.
  - destruct Hk0. by apply (list_elem_of_fmap_2' fst l (k0, b)).
  - simplify_eq. destruct Hk0. by apply (list_elem_of_fmap_2' fst l (k0, a)).
  - by apply IH.
Qed.

Section AnyCollation.
Context (localeCompare : string → string → Z).

Lemma displayNames_elem_of kernelspecs d :
  d ∈ displayNames localeCompare kernelspecs ↔ d ∈ display_names kernelspecs.
Proof.
  unfold displayNames, sort.
  by rewrite merge_sort_Permutation, displayNameMap_keys_display_names.
Qed.

Lemma displayNames_NoDup kernelspecs :
  NoDup (displayNames localeCompare kernelspecs).
Proof.
  unfold displayNames, sort. rewrite merge_sort_Permutation.
  apply displayNameMap_keys_NoDup.
Qed.

(** X17.  There are never more launch entries than kernels, the console gets
    as many as the notebook, and there is one per kernel exactly when no two
    kernels share a display name.  This needs nothing of [localeCompare]. *)
Theorem launch_entries_count (kernelspecs : KernelSpecs) :
  length (creators localeCompare kernelspecs) ≤ length kernelspecs
  ∧ length (console_creates localeCompare kernelspecs)
    = length (creators localeCompare kernelspecs)
  ∧ (length (creators localeCompare kernelspecs) = length kernelspecs
     ↔ NoDup (display_names kernelspecs)).
Proof.
  unfold creators, console_creates. rewrite !length_fmap.
  assert (length (display_names kernelspecs) = length kernelspecs) as <-
    by apply length_fmap.
  assert (displayNames localeCompare kernelspecs ⊆+ display_names kernelspecs)
    as Hsub.
  { apply NoDup_submseteq; [apply displayNames_NoDup|].
    intros d. by rewrite displayNames_elem_of. }
  split_and!; [by apply submseteq_length|done|]. split.
  - intros Hlen. rewrite <- (submseteq_length_Permutation _ _ Hsub) by lia.
    apply displayNames_NoDup.
  - intros Hnd. apply Permutation_length.
    apply NoDup_Permutation; [apply displayNames_NoDup|done|].
    apply displayNames_elem_of.
Qed.

(** X18.  A kernel can be launched from a notebook creator exactly when no
    kernel enumerated after it has the same display name; a kernel shadowed
    by a later one with its display name gets no creator. *)
Theorem kernel_has_creator_iff_last (kernelspecs : KernelSpecs) (k : string) :
  Some k ∈ kernelName <$> creators localeCompare kernelspecs
  ↔ ∃ l1 s l2, kernelspecs = l1 ++ (k, s) :: l2
               ∧ Forall (λ ks, display_name ks.2 ≠ display_name s) l2.
Proof.
  unfold creators. rewrite <- list_fmap_compose, list_elem_of_fmap. simpl.
  split.
  - intros (d & Hk & _). symmetry in Hk.
    rewrite displayNameMap_get in Hk.
    apply last_enumerated_Some in Hk as (l1 & s & l2 & -> & <- & Hl2).
    by exists l1, s, l2.
  - intros (l1 & s & l2 & -> & Hl2). exists (display_name s). split.
    + symmetry. rewrite displayNameMap_get. apply last_enumerated_Some.
      by exists l1, s, l2.
    + apply displayNames_elem_of. unfold display_names.
      apply (list_elem_of_fmap_2' _ _ (k, s)); [|done].
      apply elem_of_app. right. by left.
Qed.

(** X19.  When the kernel names are pairwise distinct, as the keys of an
    object are, no two console-create commands have the same id. *)
Theorem console_create_ids_distinct (kernelspecs : KernelSpecs) :
  NoDup (kernelspecs.*1) →
  NoDup (Launch.id <$> console_creates localeCompare kernelspecs).
Proof.
  intros Hkeys. unfold console_creates. rewrite <- list_fmap_compose.
  apply NoDup_fmap_2_strong; [|apply displayNames_NoDup].
  intros d1 d2 Hd1 Hd2. simpl. intros Heq%(inj _).
  assert (∀ d, d ∈ displayNames localeCompare kernelspecs →
    ∃ k s, obj_get (displayNameMap kernelspecs) d = Some k
           ∧ (k, s) ∈ kernelspecs ∧ display_name s = d) as Hget.
  { intros d Hd. rewrite displayNameMap_get.
    destruct (last_enumerated kernelspecs d) as [k|] eqn:Hk.
    - apply last_enumerated_Some in Hk as (l1 & s & l2 & -> & Hs & _).
      exists k, s. split_and!; [done| |done]. apply elem_of_app. right. by left.
    - apply displayNames_elem_of, displayNameMap_keys_display_names,
        displayNameMap_keys_elem_of in Hd as (k & s & Hin & <-).
      unfold last_enumerated in Hk.
      apply fmap_None, last_None in Hk.
      by destruct (filter_nil_not_elem_of _ _ (k, s) Hk eq_refl). }
  destruct (Hget d1 Hd1) as (k1 & s1 & Hk1 & Hin1 & <-).
  destruct (Hget d2 Hd2) as (k2 & s2 & Hk2 & Hin2 & <-).
  rewrite Hk1, Hk2 in Heq. simpl in Heq. subst k2.
  by rewrite (NoDup_fst_functional _ _ _ _ Hkeys Hin1 Hin2).
Qed.

(** X20.  No two notebook creators have the same name. *)
Theorem creator_names_distinct (kernelspecs : KernelSpecs) :
  NoDup (name <$> creators localeCompare kernelspecs).
Proof.
  unfold creators. rewrite <- list_fmap_compose.
  apply NoDup_fmap_2_strong; [|apply displayNames_NoDup].
  intros d1 d2 _ _. simpl. apply append_inj_r.
Qed.

End AnyCollation.

Lemma console_create_ids_distinct_witness :
  NoDup ([("python3", mkKernelSpec "Python 3"); ("ir", mkKernelSpec "R");
          ("python3-alt", mkKernelSpec "Python 3")].*1)
  ∧ NoDup (Launch.id <$> console_creates by_length
             [("python3", mkKernelSpec "Python 3"); ("ir", mkKernelSpec "R");
              ("python3-alt", mkKernelSpec "Python 3")]).
Proof.
  assert (NoDup ([("python3", mkKernelSpec "Python 3"); ("ir", mkKernelSpec "R");
                  ("python3-alt", mkKernelSpec "Python 3")].*1)) as H.
  { apply (bool_decide_unpack _). by vm_compute. }
  split; [exact H|]. exact (console_create_ids_distinct by_length _ H).
Defined.

Section StrictCollation.
Context (localeCompare : string → string → Z).
Context `{!Total (before localeCompare), !Transitive (before localeCompare)}.
Context `{!AntiSymm (=) (before localeCompare)}.

(** X21.  When [localeCompare] is a total and transitive comparison that
    tells any two different names apart, the order of the launch entries does
    not depend on the order in which the kernel specs are enumerated: two
    enumerations of the same collection give the same list of display names,
    hence the same creator names and palette texts in the same order. *)
Theorem launch_order_independent_of_enumeration
    (kernelspecs1 kernelspecs2 : KernelSpecs) :
  kernelspecs1 ≡ₚ kernelspecs2 →
  displayNames localeCompare kernelspecs1 = displayNames localeCompare kernelspecs2
  ∧ name <$> creators localeCompare kernelspecs1
    = name <$> creators localeCompare kernelspecs2
  ∧ text <$> console_creates localeCompare kernelspecs1
    = text <$> console_creates localeCompare kernelspecs2.
Proof.
  intros Hperm.
  assert (displayNames localeCompare kernelspecs1
          = displayNames localeCompare kernelspecs2) as Hnames.
  { apply (StronglySorted_unique (before localeCompare)).
    - apply (StronglySorted_merge_sort _).
    - apply (StronglySorted_merge_sort _).
    - apply NoDup_Permutation; [apply displayNames_NoDup..|].
      intros d. rewrite !displayNames_elem_of. unfold display_names.
      by rewrite Hperm. }
  split; [done|].
  unfold creators, console_creates. rewrite <- !list_fmap_compose. simpl.
  by rewrite Hnames.
Qed.

End StrictCollation.

Lemma before_by_code a b : before by_code a b ↔ String.le a b.
Proof.
  unfold before, by_code, String.le, String.leb.
  destruct (String.compare a b); simpl; split; intros; first [done|lia].
Qed.

Lemma by_code_total : Total (before by_code).
Proof. intros a b. rewrite !before_by_code. apply (total String.le). Qed.

Lemma by_code_transitive : Transitive (before by_code).
Proof.
  intros a b c. rewrite !before_by_code. apply (transitivity (R := String.le)).
Qed.

Lemma by_code_antisymm : AntiSymm (=) (before by_code).
Proof.
  intros a b. rewrite !before_by_code. apply (anti_symm String.le).
Qed.

Lemma launch_order_independent_of_enumeration_witness :
  [("python3", mkKernelSpec "Python 3"); ("ir", mkKernelSpec "R")]
    ≡ₚ [("ir", mkKernelSpec "R"); ("python3", mkKernelSpec "Python 3")]
  ∧ displayNames by_code
      [("python3", mkKernelSpec "Python 3"); ("ir", mkKernelSpec "R")]
    = displayNames by_code
        [("ir", mkKernelSpec "R"); ("python3", mkKernelSpec "Python 3")].
Proof.
  assert ([("python3", mkKernelSpec "Python 3"); ("ir", mkKernelSpec "R")]
    ≡ₚ [("ir", mkKernelSpec "R"); ("python3", mkKernelSpec "Python 3")]) as H
    by apply Permutation_swap.
  split; [exact H|].
  exact (proj1 (@launch_order_independent_of_enumeration by_code
    by_code_total by_code_transitive by_code_antisymm _ _ H)).
Defined.

End LaunchEntryProps.
